(** * automation-utilities: the bounded-wait and retry engine of [web_actions.py],
      the termination routine of [excel_automation.py] and the reader of
      [config_reader.py]

    The Python methods are embedded as computations over an explicit state:
    the fields of the [WebActions] instance the methods read and write, a
    clock, the scripted answers of the remote driver and a journal of what
    was asked of it.  Durations are integers counted in milliseconds. *)

From Stdlib Require Import ZArith String List Bool Lia Ascii.
Import ListNotations.

Local Open Scope Z_scope.

(** ** Values, exceptions, elements *)

(** One second, in clock ticks. *)
Definition second : Z := 1000.

(** The keyword arguments a caller may hand to the selection methods. *)
Inductive PyVal : Type :=
| PInt (z : Z)
| PStr (s : string)
| PBool (b : bool).

(** Python truthiness, as used by [any([...])]. *)
Definition truthy (v : option PyVal) : bool :=
  match v with
  | None => false
  | Some (PInt z) => negb (z =? 0)
  | Some (PStr s) => negb (String.eqb s "")
  | Some (PBool b) => b
  end.

(** Python [==] between two such values ([True == 1], [False == 0]). *)
Definition py_eq (a b : PyVal) : bool :=
  match a, b with
  | PInt x, PInt y => x =? y
  | PStr x, PStr y => String.eqb x y
  | PBool x, PBool y => Bool.eqb x y
  | PInt x, PBool y | PBool y, PInt x => x =? (if y then 1 else 0)
  | _, _ => false
  end.

Inductive exn : Type :=
| TimeoutException
| StaleElementReferenceException
| ElementClickInterceptedException
| WebDriverException
| UnexpectedTagNameException
| WebElementNotFoundError
| SelectionNotFoundError
| ParameterMissingError
| StepsNotCompleted        (* the plain [Exception(log_message)] of the orchestrator *)
| AttributeError
| TypeError
| IndexError
| ValueError
| KeyboardInterrupt.

(** [except Exception] catches everything but the [BaseException]-only
    classes. *)
Definition is_Exception (e : exn) : bool :=
  match e with
  | KeyboardInterrupt => false
  | _ => true
  end.

(** A resolved element handle: what the methods read from it.  [click_fault]
    is what [click()] raises on it, if anything; [accepts m v] tells whether
    the primitive [m] of [Select], applied to [v], finds its option on it. *)
Record WebElement : Type := mkElement {
  tag_name : string;
  text : string;
  click_fault : option exn;
  accepts : string -> PyVal -> bool
}.

(** The strategies of [By]. *)
Inductive FindMethod : Type := XPATH | ID.

(** What the remote end answers to one [WebDriverWait(...).until(cond)]. *)
Inductive Response : Type :=
| Present (el : WebElement)   (* the condition holds at the first poll *)
| Absent                      (* it never holds within the wait *)
| Faulty (e : exn).           (* the driver raises *)

Inductive Event : Type :=
| Waited (by_ : FindMethod) (locator : string) (timeout : Z) (clickable : bool)
| Slept (d : Z)
| Clicked
| Invoked (method : string) (arg : PyVal).

(** The instance and its surroundings. *)
Record WebActions : Type := mkWebActions {
  raise_exception : bool;            (* self.raise_exception *)
  element : option WebElement;       (* self.element *)
  clock : Z;                         (* time.time() *)
  driver : list Response;            (* answers still to come from self.driver *)
  journal : list Event               (* newest first *)
}.

Definition with_raise_exception (b : bool) (s : WebActions) : WebActions :=
  mkWebActions b (element s) (clock s) (driver s) (journal s).

Definition with_element (e : option WebElement) (s : WebActions) : WebActions :=
  mkWebActions (raise_exception s) e (clock s) (driver s) (journal s).

Definition with_clock (c : Z) (s : WebActions) : WebActions :=
  mkWebActions (raise_exception s) (element s) c (driver s) (journal s).

Definition with_driver (d : list Response) (s : WebActions) : WebActions :=
  mkWebActions (raise_exception s) (element s) (clock s) d (journal s).

Definition record (ev : Event) (s : WebActions) : WebActions :=
  mkWebActions (raise_exception s) (element s) (clock s) (driver s)
               (ev :: journal s).

(** ** Computations that may raise *)

Inductive result (A : Type) : Type :=
| Returned (a : A)
| Raised (e : exn)
| NoFuel.                     (* the loop bound of the model was reached *)

Arguments Returned {A} a.
Arguments Raised {A} e.
Arguments NoFuel {A}.

Definition M (A : Type) : Type := WebActions -> result A * WebActions.

Definition ret {A} (a : A) : M A := fun s => (Returned a, s).

Definition raise {A} (e : exn) : M A := fun s => (Raised e, s).

Definition out_of_fuel {A} : M A := fun s => (NoFuel, s).

Definition bind {A B} (m : M A) (k : A -> M B) : M B :=
  fun s =>
    match m s with
    | (Returned a, s') => k a s'
    | (Raised e, s') => (Raised e, s')
    | (NoFuel, s') => (NoFuel, s')
    end.

Declare Scope py_scope.
Delimit Scope py_scope with py.
Notation "x <- m ;; k" := (bind m (fun x => k))
  (at level 61, m at next level, right associativity) : py_scope.
Notation "m ;;; k" := (bind m (fun _ => k))
  (at level 61, right associativity) : py_scope.
Local Open Scope py_scope.

(** [try: body  except Exception as exc: handler(exc)] *)
Definition try_except {A} (body : M A) (handler : exn -> M A) : M A :=
  fun s =>
    match body s with
    | (Raised e, s') => if is_Exception e then handler e s' else (Raised e, s')
    | r => r
    end.

(** [try: body  finally: final] *)
Definition try_finally {A} (body : M A) (final : M unit) : M A :=
  fun s =>
    let (r, s1) := body s in
    match final s1 with
    | (Returned _, s2) => (r, s2)
    | (Raised e, s2) => (Raised e, s2)
    | (NoFuel, s2) => (NoFuel, s2)
    end.

Definition get_raise_exception : M bool :=
  fun s => (Returned (raise_exception s), s).

Definition set_raise_exception (b : bool) : M unit :=
  fun s => (Returned tt, with_raise_exception b s).

Definition set_element (e : option WebElement) : M unit :=
  fun s => (Returned tt, with_element e s).

(** [time.time()] *)
Definition time_time : M Z := fun s => (Returned (clock s), s).

(** [time.sleep(d)]: refuses a negative length. *)
Definition time_sleep (d : Z) : M unit :=
  fun s =>
    if d <? 0 then (Raised ValueError, s)
    else (Returned tt, record (Slept d) (with_clock (clock s + d) s)).

(** [WebDriverWait(self.driver, timeout, poll_frequency=0.25).until(cond)]:
    the next answer of the remote end.  A wait that never sees the element
    gives up once [timeout] has gone by. *)
Definition until (by_ : FindMethod) (locator : string) (timeout : Z)
                 (clickable : bool) : M WebElement :=
  fun s =>
    let s := record (Waited by_ locator timeout clickable) s in
    match driver s with
    | Present el :: rest => (Returned el, with_driver rest s)
    | Absent :: rest =>
        (Raised TimeoutException,
         with_driver rest (with_clock (clock s + timeout) s))
    | Faulty e :: rest => (Raised e, with_driver rest s)
    | [] => (Raised TimeoutException, with_clock (clock s + timeout) s)
    end.

(** ** TimeBudget *)

(** [_time_left(start, timeout)] *)
Definition _time_left (start timeout : Z) : M Z :=
  now <- time_time ;;
  let remaining := timeout - (now - start) in
  ret (Z.max 0 remaining).

(** ** LocatorStrategy *)

(** [WebActions._get_find_method] *)
Definition _get_find_method (element : string) : FindMethod :=
  if String.prefix "//" element || String.prefix "(" element
  then XPATH
  else ID.

(** ** ElementResolver *)

(** [WebActions._get_element_if_exist] *)
Definition _get_element_if_exist (element : string) (max_wait_time : Z)
           (is_clickable : bool) : M (option WebElement) :=
  let by_ := _get_find_method element in
  start <- time_time ;;
  try_except
    (remaining <- _time_left start max_wait_time ;;
     if remaining =? 0 then raise TimeoutException
     else el <- until by_ element remaining is_clickable ;; ret (Some el))
    (fun exc =>
       flag <- get_raise_exception ;;
       if flag then raise WebElementNotFoundError else ret None).

(** [WebActions.check_element_exist]; [raise_exception_] is the keyword
    argument of the call, not the field of the instance. *)
Definition check_element_exist (element : string) (max_wait_time : Z)
           (raise_exception_ : bool) : M (option WebElement) :=
  original_flag <- get_raise_exception ;;
  set_raise_exception false ;;;
  elem <- try_finally
            (_get_element_if_exist element max_wait_time false)
            (set_raise_exception original_flag) ;;
  match elem with
  | Some e => ret (Some e)
  | None =>
      if raise_exception_ then raise WebElementNotFoundError else ret None
  end.

(** ** ActionExecutor: [click] *)

(** [elem.click()] *)
Definition element_click (el : WebElement) : M unit :=
  fun s =>
    let s := record Clicked s in
    match click_fault el with
    | Some e => (Raised e, s)
    | None => (Returned tt, s)
    end.

(** How one turn of the [while] loop of [click] ends. *)
Inductive Turn : Type :=
| Done       (* return *)
| Again      (* continue *)
| Out.       (* break *)

(** The [try] statement inside the loop of [click]. *)
Definition click_turn (element : string) (max_wait_time start : Z) : M Turn :=
  fun s =>
    match (remaining <- _time_left start max_wait_time ;;
           elem <- until (_get_find_method element) element remaining true ;;
           element_click elem) s with
    | (Returned _, s') => (Returned Done, s')
    | (Raised ElementClickInterceptedException, s')
    | (Raised StaleElementReferenceException, s') =>
        (time_sleep (second / 4) ;;; ret Again) s'
    | (Raised TimeoutException, s') => (Returned Out, s')
    | (Raised e, s') => (Raised e, s')
    | (NoFuel, s') => (NoFuel, s')
    end.

(** The [while _time_left(start, max_wait_time)] loop of [click]; the answer
    tells whether the click was made. *)
Fixpoint click_loop (fuel : nat) (element : string)
         (max_wait_time start : Z) : M bool :=
  match fuel with
  | O => out_of_fuel
  | S fuel =>
      left <- _time_left start max_wait_time ;;
      if left =? 0 then ret false
      else
        turn <- click_turn element max_wait_time start ;;
        match turn with
        | Done => ret true
        | Again => click_loop fuel element max_wait_time start
        | Out => ret false
        end
  end.

(** [WebActions.click] *)
Definition click (element : string) (max_wait_time : Z) : M unit :=
  start <- time_time ;;
  clicked <- click_loop (S (Z.to_nat max_wait_time)) element
                        max_wait_time start ;;
  if clicked then ret tt
  else
    flag <- get_raise_exception ;;
    if flag then raise WebElementNotFoundError else ret tt.

(** ** ValidationLoop *)

(** The [Data] dataclass. *)
Record Data : Type := mkData {
  data : option string;
  status : bool
}.

(** [self.element.text]: the attribute of a handle that may be [None]. *)
Definition element_text (e : option WebElement) : M string :=
  match e with
  | Some el => ret (text el)
  | None => raise AttributeError
  end.

(** [stop_texts and observed in stop_texts] *)
Definition in_stop_texts (stop_texts : option (list string))
           (observed : string) : bool :=
  match stop_texts with
  | None => false
  | Some [] => false
  | Some l => existsb (String.eqb observed) l
  end.

(** The [while attempts < no_of_attempts] loop of [validate_text]. *)
Fixpoint validate_text_loop (fuel : nat) (element text : string)
         (stop_texts : option (list string))
         (max_wait_time no_of_attempts validation_wait_time : Z)
         (data : option string) (attempts : Z) : M Data :=
  match fuel with
  | O => out_of_fuel
  | S fuel =>
      if attempts <? no_of_attempts then
        el <- _get_element_if_exist element max_wait_time true ;;
        set_element el ;;;
        observed <- element_text el ;;
        let data := Some observed in
        if in_stop_texts stop_texts observed then ret (mkData data false)
        else if String.eqb observed text then ret (mkData data true)
        else
          time_sleep validation_wait_time ;;;
          validate_text_loop fuel element text stop_texts max_wait_time
                             no_of_attempts validation_wait_time
                             data (attempts + 1)
      else ret (mkData data false)
  end.

(** [WebActions.validate_text] *)
Definition validate_text (element text : string)
           (stop_texts : option (list string))
           (max_wait_time no_of_attempts validation_wait_time : Z) : M Data :=
  validate_text_loop (S (Z.to_nat no_of_attempts)) element text stop_texts
                     max_wait_time no_of_attempts validation_wait_time
                     None 0.

(** [self.element and self.element.text == text] *)
Definition text_matches (e : option WebElement) (expected : string) : bool :=
  match e with
  | Some el => String.eqb (text el) expected
  | None => false
  end.

(** The [while max_wait_time > 0] loop of [wait_until_text_matches]. *)
Fixpoint wait_until_text_matches_loop (fuel : nat) (element text : string)
         (max_wait_time : Z) (is_clickable : bool) : M bool :=
  match fuel with
  | O => out_of_fuel
  | S fuel =>
      if 0 <? max_wait_time then
        el <- _get_element_if_exist element max_wait_time is_clickable ;;
        set_element el ;;;
        if text_matches el text then ret true
        else
          time_sleep (1 * second) ;;;
          wait_until_text_matches_loop fuel element text
                                       (max_wait_time - 1 * second)
                                       is_clickable
      else ret false
  end.

(** [WebActions.wait_until_text_matches] *)
Definition wait_until_text_matches (element text : string)
           (max_wait_time : Z) (is_clickable : bool) : M bool :=
  wait_until_text_matches_loop (S (Z.to_nat max_wait_time)) element text
                               max_wait_time is_clickable.

(** The second [while max_wait_time > 0] loop of
    [wait_until_element_text_changes]: [self.element.text != text] is read
    off the handle as it is, [None] included. *)
Fixpoint wait_until_element_text_changes_loop
         (fuel : nat) (element text : string)
         (max_wait_time : Z) (is_clickable : bool) : M unit :=
  match fuel with
  | O => out_of_fuel
  | S fuel =>
      if 0 <? max_wait_time then
        el <- _get_element_if_exist element max_wait_time is_clickable ;;
        set_element el ;;;
        observed <- element_text el ;;
        if negb (String.eqb observed text) then ret tt
        else
          time_sleep (1 * second) ;;;
          wait_until_element_text_changes_loop fuel element text
                                               (max_wait_time - 1 * second)
                                               is_clickable
      else ret tt
  end.

(** [WebActions.wait_until_element_text_changes] *)
Definition wait_until_element_text_changes (element text : string)
           (max_wait_time : Z) (is_clickable : bool) : M unit :=
  is_matched <- wait_until_text_matches element text max_wait_time
                                        is_clickable ;;
  if negb is_matched then ret tt
  else
    wait_until_element_text_changes_loop (S (Z.to_nat max_wait_time))
                                         element text max_wait_time
                                         is_clickable.

(** ** SelectionDispatcher *)

(** [str.removesuffix] *)
Fixpoint removesuffix (suffix s : string) : string :=
  if String.eqb s suffix then EmptyString
  else match s with
       | EmptyString => EmptyString
       | String c r => String c (removesuffix suffix r)
       end.

(** [[i for i, a in locals().items() if a == available_option][0]] *)
Definition first_local (locals : list (string * option PyVal))
           (available_option : PyVal) : M string :=
  match filter (fun ia => match snd ia with
                          | Some a => py_eq a available_option
                          | None => false
                          end) locals with
  | ia :: _ => ret (fst ia)
  | [] => raise IndexError
  end.

(** The primitives [Select] offers under the names the dispatcher builds. *)
Definition select_api : list string :=
  [ "select_by_index"; "select_by_visible_text"; "select_by_value";
    "deselect_by_index"; "deselect_by_visible_text"; "deselect_by_value" ]%string.

(** [getattr(select_element, method)(value)] *)
Definition invoke (el : WebElement) (method : string) (value : PyVal) : M unit :=
  if existsb (String.eqb method) select_api then
    fun s =>
      let s := record (Invoked method value) s in
      if accepts el method value then (Returned tt, s)
      else (Raised WebDriverException, s)
  else raise AttributeError.

(** One round of [for available_option in [index, visible_text, value]]. *)
Definition pick_method (action : string)
           (locals : list (string * option PyVal))
           (selection_params : string * PyVal)
           (available_option : option PyVal) : M (string * PyVal) :=
  match available_option with
  | Some v =>
      i <- first_local locals v ;;
      ret ((removesuffix "_element" action ++ "_by_" ++ i)%string, v)
  | None => ret selection_params
  end.

(** A duration as the Python number of seconds it stands for: an integer for
    whole seconds; otherwise a float, which equals none of the values a
    selection is made by. *)
Definition as_seconds (t : Z) : option PyVal :=
  if t mod second =? 0 then Some (PInt (t / second)) else None.

(** [WebActions._perform_selection_action].  Of the local variables only
    those bound before [index] can come first in the search by value: the
    option looked for is itself one of [index], [visible_text], [value]. *)
Definition _perform_selection_action (element action : string)
           (max_wait_time : Z) (index visible_text value : option PyVal)
           (is_clickable : bool) : M unit :=
  el <- _get_element_if_exist element max_wait_time is_clickable ;;
  set_element el ;;;
  match el with
  | None => ret tt
  | Some e =>
      if negb (String.eqb (tag_name e) "select")
      then raise UnexpectedTagNameException
      else
        let locals :=
          [ ("element", Some (PStr element)); ("action", Some (PStr action));
            ("max_wait_time", as_seconds max_wait_time); ("index", index);
            ("visible_text", visible_text); ("value", value) ]%string in
        p0 <- pick_method action locals (EmptyString, PStr EmptyString) index ;;
        p1 <- pick_method action locals p0 visible_text ;;
        selection_params <- pick_method action locals p1 value ;;
        try_except
          (invoke e (fst selection_params) (snd selection_params))
          (fun er => raise SelectionNotFoundError)
  end.

(** [not any([index, visible_text, value])] *)
Definition none_given (index visible_text value : option PyVal) : bool :=
  negb (existsb truthy [index; visible_text; value]).

(** [WebActions.select_element] *)
Definition select_element (element : string) (max_wait_time : Z)
           (is_clickable : bool)
           (index visible_text value : option PyVal) : M unit :=
  if none_given index visible_text value then raise ParameterMissingError
  else
    _perform_selection_action element "select_element" max_wait_time
                              index visible_text value is_clickable.

(** [WebActions.deselect_element] *)
Definition deselect_element (element : string) (max_wait_time : Z)
           (index visible_text value : option PyVal) : M unit :=
  if none_given index visible_text value then raise ParameterMissingError
  else
    _perform_selection_action element "deselect_element" max_wait_time
                              index visible_text value true.

(** ** StepOrchestrator *)

(** A step dictionary, by the keys [repeat_steps_until_success] reads. *)
Module Step.
Record selection : Type := mkSelection {
  index : option PyVal;
  visible_text : option PyVal;
  value : option PyVal
}.

Record t : Type := mk {
  action : string;
  element : string;
  text : string;
  max_wait_time : option Z;
  no_of_attempts : option Z;
  stop_texts : option (list string);
  selection_params : option selection
}.
End Step.

(** The local variables of [repeat_steps_until_success] that live across
    steps and passes. *)
Module Loop.
Record t : Type := mk {
  max_wait_time : Z;
  no_of_attempts : Z;
  data : option string;
  break_flag : bool
}.
End Loop.

(** The methods of the instance that are not embedded here; a step hands
    them its action name, itself and the wait time in force. *)
Definition PageAction : Type := string -> Step.t -> Z -> M unit.

(** [dict.get(key, default)] *)
Definition get_or {A} (o : option A) (default : A) : A :=
  match o with
  | Some v => v
  | None => default
  end.

(** [self.select_element(element, max_wait_time=..., **selection_params)] and
    its twin: unpacking a missing mapping is a [TypeError]. *)
Definition with_selection (sel : option Step.selection)
           (k : option PyVal -> option PyVal -> option PyVal -> M unit) : M unit :=
  match sel with
  | Some p => k (Step.index p) (Step.visible_text p) (Step.value p)
  | None => raise TypeError
  end.

(** The [if]/[elif] chain on [step.get("action")]. *)
Definition dispatch (page : PageAction) (step : Step.t) (l : Loop.t) : M Loop.t :=
  let action := Step.action step in
  let max_wait_time := Loop.max_wait_time l in
  if String.eqb action "set_text" then
    page action step max_wait_time ;;; ret l
  else if String.eqb action "set_text_enter" then
    page action step max_wait_time ;;; ret l
  else if String.eqb action "click" then
    click (Step.element step) max_wait_time ;;; ret l
  else if String.eqb action "wait_until_element_exists" then
    check_element_exist (Step.element step) max_wait_time false ;;; ret l
  else if String.eqb action "wait_until_element_text_changes" then
    page action step max_wait_time ;;; ret l
  else if String.eqb action "wait_until_text_matches" then
    wait_until_text_matches (Step.element step) (Step.text step)
                            max_wait_time false ;;; ret l
  else if String.eqb action "select_element" then
    with_selection (Step.selection_params step)
                   (select_element (Step.element step) max_wait_time true) ;;;
    ret l
  else if String.eqb action "deselect_element" then
    with_selection (Step.selection_params step)
                   (deselect_element (Step.element step) max_wait_time) ;;;
    ret l
  else if String.eqb action "switch_to_frame" then
    page action step max_wait_time ;;; ret l
  else if String.eqb action "get_text" then
    page action step max_wait_time ;;; ret l
  else if String.eqb action "get_url" then
    page action step max_wait_time ;;; ret l
  else if String.eqb action "validate_text" then
    is_valid_ <- validate_text (Step.element step) (Step.text step)
                               (Step.stop_texts step) max_wait_time
                               1 (2 * second) ;;
    let is_valid := status is_valid_ in
    ret (Loop.mk max_wait_time (Loop.no_of_attempts l) (data is_valid_)
                 (if is_valid then true else Loop.break_flag l))
  else ret l.

(** The body of [for step in steps]. *)
Definition run_step (page : PageAction) (step_wait_time : Z)
           (step : Step.t) (l : Loop.t) : M Loop.t :=
  let max_wait_time := get_or (Step.max_wait_time step) (Loop.max_wait_time l) in
  let no_of_attempts := get_or (Step.no_of_attempts step) (Loop.no_of_attempts l) in
  l' <- dispatch page step
          (Loop.mk max_wait_time no_of_attempts (Loop.data l) (Loop.break_flag l)) ;;
  time_sleep step_wait_time ;;;
  ret l'.

(** One pass: [for step in steps: ...] *)
Fixpoint run_pass (page : PageAction) (step_wait_time : Z)
         (steps : list Step.t) (l : Loop.t) : M Loop.t :=
  match steps with
  | [] => ret l
  | step :: rest =>
      l' <- run_step page step_wait_time step l ;;
      run_pass page step_wait_time rest l'
  end.

(** [needle in haystack] on two strings. *)
Fixpoint contains (needle haystack : string) : bool :=
  String.prefix needle haystack ||
  match haystack with
  | EmptyString => false
  | String _ rest => contains needle rest
  end.

(** [any(data in stop_text for stop_text in stop_texts)]; [None in "..."] is
    a [TypeError]. *)
Fixpoint any_contains (data : option string) (stop_texts : list string) : M bool :=
  match stop_texts with
  | [] => ret false
  | stop_text :: rest =>
      match data with
      | None => raise TypeError
      | Some d =>
          if contains d stop_text then ret true else any_contains data rest
      end
  end.

(** The test made after a pass, on [steps[-1].get("stop_texts", [])]. *)
Definition stop_check (data : option string) (steps : list Step.t) : M bool :=
  match rev steps with
  | [] => raise IndexError
  | final :: _ => any_contains data (get_or (Step.stop_texts final) [])
  end.

(** The [while no_of_attempts > 0] loop. *)
Fixpoint repeat_loop (fuel : nat) (page : PageAction) (step_wait_time : Z)
         (steps : list Step.t) (l : Loop.t) : M Loop.t :=
  match fuel with
  | O => out_of_fuel
  | S fuel =>
      if 0 <? Loop.no_of_attempts l then
        l1 <- run_pass page step_wait_time steps l ;;
        let l2 := Loop.mk (Loop.max_wait_time l1) (Loop.no_of_attempts l1 - 1)
                          (Loop.data l1) (Loop.break_flag l1) in
        if Loop.break_flag l2 then ret l2
        else
          hit <- stop_check (Loop.data l2) steps ;;
          if hit
          then ret (Loop.mk (Loop.max_wait_time l2) (Loop.no_of_attempts l2)
                            (Loop.data l2) true)
          else repeat_loop fuel page step_wait_time steps l2
      else ret l
  end.

(** [Union[bool, Data]] *)
Inductive Verdict : Type :=
| Flag (b : bool)
| WithData (d : Data).

(** [WebActions.repeat_steps_until_success]; the loop may go on for ever,
    so the embedding takes the number of passes it is followed for. *)
Definition repeat_steps_until_success (fuel : nat) (page : PageAction)
           (steps : list Step.t) (max_wait_time no_of_attempts step_wait_time : Z)
           (raise_exception_ return_data : bool) : M Verdict :=
  l <- repeat_loop fuel page step_wait_time steps
                   (Loop.mk max_wait_time no_of_attempts None false) ;;
  if negb (Loop.break_flag l) then
    if raise_exception_ then raise StepsNotCompleted
    else if return_data then ret (WithData (mkData (Loop.data l) false))
    else ret (Flag false)
  else if return_data then ret (WithData (mkData (Loop.data l) true))
  else ret (Flag true).

(** ** Termination of the spreadsheet host ([ExcelAutomation.quit]) *)

Module Excel.

(** What [self.excel.Quit()] does: it returns, or raises a [com_error]
    with the given [strerror]. *)
Inductive Answer : Type :=
| Quits
| ComError (strerror : string).

Definition busy : string :=
  "The message filter indicated that the application is busy.".

Inductive Act : Type :=
| AskedToQuit
| Paused (delay : Z)
| Taskkill (username : string).

Record Host : Type := mkHost {
  answers : list Answer;      (* empty: the application quits *)
  login : string;             (* os.getlogin() *)
  acts : list Act             (* newest first *)
}.

Definition note (a : Act) (h : Host) : Host :=
  mkHost (answers h) (login h) (a :: acts h).

(** [self.excel.Quit()] *)
Definition Quit (h : Host) : Answer * Host :=
  let h := note AskedToQuit h in
  match answers h with
  | [] => (Quits, h)
  | a :: rest => (a, mkHost rest (login h) (acts h))
  end.

(** [for i in range(retries): ...]; [todo] rounds are left.  The result
    is the exception that escapes, if any. *)
Fixpoint quit_rounds (todo : nat) (delay : Z) (h : Host) : option exn * Host :=
  match todo with
  | O => (None, h)
  | S todo =>
      match Quit h with
      | (Quits, h) => (None, h)
      | (ComError strerror, h) =>
          if String.eqb strerror busy then
            if delay <? 0 then (Some ValueError, h)
            else quit_rounds todo delay (note (Paused delay) h)
          else
            quit_rounds todo delay (note (Taskkill (login h)) h)
      end
  end.

(** [ExcelAutomation.quit] *)
Definition quit (retries delay : Z) (h : Host) : option exn * Host :=
  quit_rounds (Z.to_nat retries) delay h.

End Excel.

(** ** Configuration ([config_reader.read_config]) *)

Module Config.

Inductive error : Type :=
| KeyError
| TypeError
| AttributeError
| ConfigKeyMissingError
| ConfigDataBlankError
| FileNotFoundError.

(** What [yaml.load] made of the file: a mapping, by its items, whose
    values are the scalars of YAML ([None] for null); or something else
    (nothing, a sequence, a scalar), which has neither items nor keys. *)
Inductive Document : Type :=
| Mapping (items : list (string * option PyVal))
| Other.

Inductive outcome : Type :=
| Value (v : option PyVal)
| Error (e : error).

(** [config[tag]] on a mapping *)
Definition lookup (tag : string) (items : list (string * option PyVal))
  : option (option PyVal) :=
  match find (fun kv => String.eqb (fst kv) tag) items with
  | Some kv => Some (snd kv)
  | None => None
  end.

(** [x is None] *)
Definition is_None (v : option PyVal) : bool :=
  match v with
  | None => true
  | Some _ => false
  end.

(** [read_config], from the document on; [exists_] is [os.path.exists] on
    what is a path or a descriptor, and the second component is what was
    printed. *)
Definition read_config (exists_ : PyVal -> bool) (config : Document)
           (tag : string)
           (write_to_console raise_error_on_not_found validate_existence : bool)
           (if_none_return : option PyVal)
  : outcome * list (option PyVal) :=
  match config with
  | Other =>
      if write_to_console then (Error TypeError, [])
      else (Error AttributeError, [])
  | Mapping items =>
      match (if write_to_console
             then match lookup tag items with
                  | Some v => inl [v]
                  | None => inr KeyError
                  end
             else inl []) with
      | inr e => (Error e, [])
      | inl printed =>
          match lookup tag items with
          | None => (Error ConfigKeyMissingError, printed)
          | Some v =>
              if raise_error_on_not_found && is_None v
              then (Error ConfigDataBlankError, printed)
              else
                match (if validate_existence
                       then match v with
                            | None => Some TypeError
                            | Some p => if exists_ p then None
                                        else Some FileNotFoundError
                            end
                       else None) with
                | Some e => (Error e, printed)
                | None =>
                    if truthy if_none_return && is_None v
                    then (Value if_none_return, printed)
                    else (Value v, printed)
                end
          end
      end
  end.

End Config.

(** ** Vocabulary of the properties *)

(** A locator that is a path expression: it opens with [//] or with [(]. *)
Definition path_like (s : string) : Prop :=
  (exists rest, s = ("//" ++ rest)%string) \/ (exists rest, s = ("(" ++ rest)%string).

(** An observation that neither stops nor settles a validation. *)
Definition idle (expected : string) (stop_texts : option (list string))
           (el : WebElement) : bool :=
  negb (in_stop_texts stop_texts (text el))
  && negb (String.eqb (text el) expected).

(** The text seen last in a run of observations. *)
Definition last_seen (els : list WebElement) (before : option string)
  : option string :=
  fold_left (fun _ el => Some (text el)) els before.

(** The attempts counter once a run of steps has gone by: every step that
    carries its own [no_of_attempts] overwrites it. *)
Definition attempts_after (steps : list Step.t) (n : Z) : Z :=
  fold_left (fun n step => get_or (Step.no_of_attempts step) n) steps n.

(** The acts of [r] rounds that met a busy application, newest first. *)
Fixpoint busy_rounds (delay : Z) (r : nat) : list Excel.Act :=
  match r with
  | O => []
  | S r => Excel.Paused delay :: Excel.AskedToQuit :: busy_rounds delay r
  end.

(** The acts of [r] rounds that met a failure other than busy, for the
    user [u], newest first. *)
Fixpoint failed_rounds (u : string) (r : nat) : list Excel.Act :=
  match r with
  | O => []
  | S r => Excel.Taskkill u :: Excel.AskedToQuit :: failed_rounds u r
  end.

(** How many times the application was asked to quit. *)
Definition asks_to_quit (acts : list Excel.Act) : nat :=
  length (filter (fun a => match a with
                           | Excel.AskedToQuit => true
                           | _ => false
                           end) acts).

(** How many times the application was killed. *)
Definition kills (acts : list Excel.Act) : nat :=
  length (filter (fun a => match a with
                           | Excel.Taskkill _ => true
                           | _ => false
                           end) acts).

(** An answer that is no failure, or the failure of a busy application. *)
Definition mild (a : Excel.Answer) : bool :=
  match a with
  | Excel.Quits => true
  | Excel.ComError strerror => String.eqb strerror Excel.busy
  end.

(** An element whose click is intercepted or whose handle has gone stale:
    the two faults [click] tries again on. *)
Definition intercepted (el : WebElement) : bool :=
  match click_fault el with
  | Some ElementClickInterceptedException
  | Some StaleElementReferenceException => true
  | _ => false
  end.

(** ** Sample pages *)

(** An element that shows the given text. *)
Definition showing (t : string) : WebElement :=
  mkElement "span" t None (fun _ _ => false).

(** A button that takes a click. *)
Definition button : WebElement :=
  mkElement "button" "Submit" None (fun _ _ => false).

(** A button under an overlay: the click on it is intercepted. *)
Definition covered_button : WebElement :=
  mkElement "button" "Submit" (Some ElementClickInterceptedException)
            (fun _ _ => false).

(** A [<select>] element that has every option asked for. *)
Definition dropdown : WebElement :=
  mkElement "select" "" None (fun _ _ => true).

(** An instance that has just been created, with the given answers ahead. *)
Definition fresh (answers : list Response) : WebActions :=
  mkWebActions false None 0 answers [].

(** The other methods of the instance, taken to do nothing. *)
Definition quiet : PageAction := fun _ _ _ => ret tt.

(** [{"action": "click", "element": "submit"}] *)
Definition click_submit : Step.t :=
  Step.mk "click" "submit" "" None None None None.

(** The same step with [no_of_attempts] set. *)
Definition click_submit_with (attempts : Z) : Step.t :=
  Step.mk "click" "submit" "" None (Some attempts) None None.

(** [{"action": "get_url", "no_of_attempts": attempts}] *)
Definition read_url_with (attempts : Z) : Step.t :=
  Step.mk "get_url" "" "" None (Some attempts) None None.

(** [{"action": "validate_text", "element": "status", "text": "done",
      "stop_texts": ["error"]}] *)
Definition validate_status : Step.t :=
  Step.mk "validate_text" "status" "done" None None
          (Some ["error"%string]) None.

(** * Properties *)

(** ** Sequencing *)

Lemma bind_returned {A B} (m : M A) (k : A -> M B) (s s' : WebActions) (b : B) :
  bind m k s = (Returned b, s') ->
  exists a s1, m s = (Returned a, s1) /\ k a s1 = (Returned b, s').
Proof.
  unfold bind. destruct (m s) as [[a|e|] s1]; intros H; try discriminate.
  exists a, s1. split; [reflexivity|exact H].
Qed.

Lemma bind_raised {A B} (m : M A) (k : A -> M B) (s s' : WebActions) (e : exn) :
  bind m k s = (Raised e, s') ->
  m s = (Raised e, s')
  \/ exists a s1, m s = (Returned a, s1) /\ k a s1 = (Raised e, s').
Proof.
  unfold bind. destruct (m s) as [[a|e0|] s1]; intros H; try discriminate.
  - right. exists a, s1. split; [reflexivity|exact H].
  - left. now injection H as -> ->.
Qed.

(** What gets out of [try: ... except Exception: raise e'] is [e'] or an
    exception that [Exception] does not cover. *)
Lemma try_except_reraise {A} (body : M A) (e' e : exn) (s s' : WebActions) :
  try_except body (fun _ => raise e') s = (Raised e, s') ->
  e = e' \/ is_Exception e = false.
Proof.
  unfold try_except, raise.
  destruct (body s) as [[a|e0|] s1]; try discriminate.
  destruct (is_Exception e0) eqn:E; intros [= <- <-]; auto.
Qed.

Lemma bind_fuel {A B} (m : M A) (k : A -> M B) (s : WebActions) :
  fst (m s) <> NoFuel ->
  (forall a s1, fst (k a s1) <> NoFuel) ->
  fst (bind m k s) <> NoFuel.
Proof.
  unfold bind. destruct (m s) as [[a|e|] s1]; cbn; intros Hm Hk;
    [apply Hk|discriminate|contradiction].
Qed.

(** ** TimeBudget *)

Section TimeBudget.

Variables start timeout : Z.

Lemma time_left_run (s : WebActions) :
  _time_left start timeout s
  = (Returned (Z.max 0 (timeout - (clock s - start))), s).
Proof. reflexivity. Qed.

(** C9: with [elapsed = now - start], [_time_left] answers
    [max(0, timeout - elapsed)] and leaves the instance alone; the answer
    is never negative, and a later reading of the clock never gives a
    larger one. *)
Theorem time_left_is_clamped_remainder :
  (forall s, _time_left start timeout s
             = (Returned (Z.max 0 (timeout - (clock s - start))), s))
  /\ (forall s r, fst (_time_left start timeout s) = Returned r -> 0 <= r)
  /\ (forall s1 s2 r1 r2,
         clock s1 <= clock s2 ->
         fst (_time_left start timeout s1) = Returned r1 ->
         fst (_time_left start timeout s2) = Returned r2 ->
         r2 <= r1).
Proof.
  split; [exact time_left_run|split].
  - intros s r. rewrite time_left_run. cbn. intros [= <-]. lia.
  - intros s1 s2 r1 r2 Hclock. rewrite !time_left_run. cbn.
    intros [= <-] [= <-]. lia.
Qed.

End TimeBudget.

Lemma time_left_is_clamped_remainder_witness :
  fst (_time_left 0 (5 * second) (with_clock (2 * second) (fresh [])))
  = Returned (3 * second)
  /\ fst (_time_left 0 (5 * second) (with_clock (9 * second) (fresh [])))
     = Returned 0.
Proof.
  destruct (time_left_is_clamped_remainder 0 (5 * second)) as (Hrun & _ & _).
  split; now rewrite Hrun.
Defined.

(** ** LocatorStrategy *)

Lemma prefix_iff_append (p s : string) :
  String.prefix p s = true <-> exists rest, s = (p ++ rest)%string.
Proof.
  revert s. induction p as [|c p IH]; intros s.
  - split; [intros _; now exists s|intros _; now destruct s].
  - destruct s as [|d s]; cbn.
    + split; [discriminate|intros [rest [=]]].
    + destruct (Ascii.ascii_dec c d) as [->|Hcd].
      * rewrite IH. split; intros [rest H]; exists rest; congruence.
      * split; [discriminate|intros [rest [= ? ?]]; congruence].
Qed.

Lemma find_method_xpath (s : string) : _get_find_method s = XPATH <-> path_like s.
Proof.
  unfold _get_find_method, path_like.
  rewrite <- !prefix_iff_append.
  destruct (String.prefix "//" s), (String.prefix "(" s); cbn;
    intuition discriminate.
Qed.

(** C8: the strategy depends on the locator string alone; it is [XPATH] for
    the strings that open with [//] or [(], [ID] for all the others, and the
    same string is always classified the same way. *)
Theorem get_find_method_by_prefix :
  forall s : string,
    (path_like s -> _get_find_method s = XPATH)
    /\ (~ path_like s -> _get_find_method s = ID)
    /\ (forall s', s' = s -> _get_find_method s' = _get_find_method s).
Proof.
  intros s. repeat split.
  - apply find_method_xpath.
  - intros Hn. destruct (_get_find_method s) eqn:E; [|reflexivity].
    apply find_method_xpath in E. contradiction.
  - now intros s' ->.
Qed.

Lemma get_find_method_by_prefix_witness :
  _get_find_method "//div[@id='main']" = XPATH
  /\ _get_find_method "submit" = ID.
Proof.
  split.
  - apply (proj1 (get_find_method_by_prefix "//div[@id='main']")).
    left. now exists "div[@id='main']"%string.
  - apply (proj1 (proj2 (get_find_method_by_prefix "submit"))).
    intros [[rest H]|[rest H]]; discriminate H.
Defined.

(** ** ElementResolver *)

(** C5: whatever the instance-wide flag holds, [check_element_exist] leaves
    it as it found it: when the element is found, when nothing is found, and
    when the resolution lets an exception through. *)
Theorem check_element_exist_restores_flag :
  forall (locator : string) (max_wait_time : Z) (raise_exception_ : bool)
         (s : WebActions),
    raise_exception (snd (check_element_exist locator max_wait_time
                                              raise_exception_ s))
    = raise_exception s.
Proof.
  intros locator max_wait_time re s.
  unfold check_element_exist, bind, get_raise_exception, set_raise_exception,
    try_finally.
  destruct (_get_element_if_exist locator max_wait_time false
              (with_raise_exception false s)) as [[[e|]|e|] s1];
    cbn; try reflexivity; destruct re; reflexivity.
Qed.

(** The three ways out, for an instance that escalates by default. *)
Example check_element_exist_found :
  check_element_exist "//a" (5 * second) false
                      (with_raise_exception true (fresh [Present (showing "x")]))
  = (Returned (Some (showing "x")),
     mkWebActions true None 0 [] [Waited XPATH "//a" (5 * second) false]).
Proof. reflexivity. Qed.

Example check_element_exist_empty :
  check_element_exist "//a" (5 * second) false
                      (with_raise_exception true (fresh [Absent]))
  = (Returned None,
     mkWebActions true None (5 * second) []
                  [Waited XPATH "//a" (5 * second) false]).
Proof. reflexivity. Qed.

Example check_element_exist_interrupted :
  check_element_exist "//a" (5 * second) false
                      (with_raise_exception true
                         (fresh [Faulty KeyboardInterrupt]))
  = (Raised KeyboardInterrupt,
     mkWebActions true None 0 [] [Waited XPATH "//a" (5 * second) false]).
Proof. reflexivity. Qed.

(** The resolver has no loop of its own. *)
Lemma resolve_fuel (locator : string) (max_wait_time : Z) (clickable : bool)
      (s : WebActions) :
  fst (_get_element_if_exist locator max_wait_time clickable s) <> NoFuel.
Proof.
  unfold _get_element_if_exist, bind at 1, time_time, try_except.
  match goal with
  | |- context [match ?body with _ => _ end] =>
      assert (Hbody : fst body <> NoFuel);
      [|destruct body as [[a|e|] s1]; cbn in *;
        [discriminate| |contradiction]]
  end.
  - apply bind_fuel; [discriminate|]. intros remaining s1.
    destruct (remaining =? 0); [discriminate|].
    apply bind_fuel; [|discriminate].
    unfold until. cbn. destruct (driver s1) as [|[el| |e] rest]; discriminate.
  - destruct (is_Exception e); [|discriminate].
    unfold bind, get_raise_exception. destruct (raise_exception s1); discriminate.
Qed.

(** X1: whatever the page answers and however the call ends,
    [_get_element_if_exist] is over once its timeout has gone by, and at
    once when the timeout is not positive. *)
Lemma resolve_within_timeout (locator : string) (max_wait_time : Z)
      (clickable : bool) (s : WebActions) :
  0 <= clock (snd (_get_element_if_exist locator max_wait_time clickable s))
       - clock s
    <= Z.max 0 max_wait_time.
Proof.
  unfold _get_element_if_exist, bind, try_except, time_time, _time_left, ret,
    raise, get_raise_exception, until.
  cbn. replace (max_wait_time - (clock s - clock s)) with max_wait_time by lia.
  destruct (Z.max 0 max_wait_time =? 0); cbn.
  - destruct (raise_exception s); cbn; lia.
  - destruct (driver s) as [|[el| |e] rest]; cbn;
      try (destruct (is_Exception e); cbn);
      try (destruct (raise_exception s); cbn); lia.
Qed.

(** ** ActionExecutor: [click] keeps its deadline *)

Section Click.

Variables (locator : string) (max_wait_time start : Z).

Lemma click_turn_clock (s s' : WebActions) (r : result Turn) :
  start <= clock s ->
  clock s - start < max_wait_time ->
  click_turn locator max_wait_time start s = (r, s') ->
  clock s <= clock s'
  /\ clock s' - start < max_wait_time + second / 4.
Proof.
  intros Hstart Hleft.
  unfold click_turn, bind, _time_left, time_time, ret, until, element_click,
    time_sleep.
  change (second / 4) with 250. cbn.
  destruct (driver s) as [|[el| |e] rest]; cbn.
  - intros [= <- <-]. cbn. lia.
  - destruct (click_fault el) as [e|]; [destruct e|];
      cbn; intros [= <- <-]; cbn; lia.
  - intros [= <- <-]. cbn. lia.
  - destruct e; cbn; intros [= <- <-]; cbn; lia.
Qed.

Lemma click_loop_clock (fuel : nat) :
  forall (s s' : WebActions) (r : result bool),
    start <= clock s ->
    clock s - start < max_wait_time + second / 4 ->
    click_loop fuel locator max_wait_time start s = (r, s') ->
    clock s <= clock s'
    /\ clock s' - start < max_wait_time + second / 4.
Proof.
  induction fuel as [|fuel IH]; intros s s' r Hstart Hbound.
  - intros [= <- <-]. lia.
  - cbn [click_loop]. unfold bind at 1. rewrite time_left_run.
    destruct (Z.eqb_spec (Z.max 0 (max_wait_time - (clock s - start))) 0)
      as [E|E].
    + intros [= <- <-]. lia.
    + unfold bind.
      destruct (click_turn locator max_wait_time start s) as [rt s1] eqn:Ht.
      apply click_turn_clock in Ht as [Hmono Hb]; [|lia|lia].
      destruct rt as [[| |]|e|]; try (intros [= <- <-]; lia).
      intros Hrun. apply IH in Hrun; lia.
Qed.

Lemma click_turn_again (s s' : WebActions) :
  click_turn locator max_wait_time start s = (Returned Again, s') ->
  clock s' = clock s + second / 4.
Proof.
  unfold click_turn, bind, _time_left, time_time, ret, until, element_click,
    time_sleep.
  change (second / 4) with 250. cbn.
  destruct (driver s) as [|[el| |e] rest]; cbn.
  - discriminate.
  - destruct (click_fault el) as [e|]; [destruct e|];
      cbn; try discriminate; intros [= <-]; reflexivity.
  - discriminate.
  - destruct e; cbn; try discriminate; intros [= <-]; reflexivity.
Qed.

Lemma click_turn_fuel (s : WebActions) :
  fst (click_turn locator max_wait_time start s) <> NoFuel.
Proof.
  unfold click_turn, bind, _time_left, time_time, ret, until, element_click,
    time_sleep.
  change (second / 4) with 250. cbn.
  destruct (driver s) as [|[el| |e] rest]; cbn; try discriminate.
  - destruct (click_fault el) as [e|]; [destruct e|]; cbn; discriminate.
  - destruct e; cbn; discriminate.
Qed.

(** Every turn that is taken again has slept: the loop is through before
    as many turns as there are ticks in the timeout. *)
Lemma click_loop_fuel (fuel : nat) :
  forall s : WebActions,
    (Z.to_nat (max_wait_time - (clock s - start)) < fuel)%nat ->
    fst (click_loop fuel locator max_wait_time start s) <> NoFuel.
Proof.
  induction fuel as [|fuel IH]; intros s Hfuel; [lia|].
  cbn [click_loop]. unfold bind at 1. rewrite time_left_run.
  destruct (Z.eqb_spec (Z.max 0 (max_wait_time - (clock s - start))) 0)
    as [E|E]; [discriminate|].
  unfold bind.
  destruct (click_turn locator max_wait_time start s) as [rt s1] eqn:Ht.
  destruct rt as [[| |]|e|]; try discriminate.
  - apply click_turn_again in Ht. apply IH.
    rewrite Ht. change (second / 4) with 250. lia.
  - pose proof (click_turn_fuel s) as Hf. rewrite Ht in Hf. contradiction.
Qed.

End Click.

Lemma click_fuel (locator : string) (max_wait_time : Z) (s : WebActions) :
  fst (click locator max_wait_time s) <> NoFuel.
Proof.
  unfold click, bind at 1, time_time. apply bind_fuel.
  - apply click_loop_fuel. lia.
  - intros [|] s1; [discriminate|].
    unfold bind, get_raise_exception. destruct (raise_exception s1); discriminate.
Qed.

(** X5: whatever the page does and however the call ends, [click] is over
    before its timeout and one pause of a quarter of a second have gone
    by: its deadline is absolute. *)
Lemma click_keeps_deadline (locator : string) (max_wait_time : Z)
      (s s' : WebActions) (r : result unit) :
  0 <= max_wait_time ->
  click locator max_wait_time s = (r, s') ->
  0 <= clock s' - clock s < max_wait_time + second / 4.
Proof.
  intros Hpos. unfold click, bind at 1, time_time. unfold bind at 1.
  destruct (click_loop (S (Z.to_nat max_wait_time)) locator max_wait_time
                       (clock s) s) as [rl s1] eqn:Hloop.
  apply click_loop_clock in Hloop;
    [|lia|change (second / 4) with 250; lia].
  destruct rl as [[|]|e|]; try (intros [= <- <-]; lia).
  unfold bind, get_raise_exception.
  destruct (raise_exception s1); intros [= <- <-]; lia.
Qed.

(** ** ValidationLoop *)

Section Validation.

Variables (locator expected : string) (stop_texts : option (list string)).
Variables (max_wait_time no_of_attempts validation_wait_time : Z).

Hypothesis wait_positive : 0 < max_wait_time.
Hypothesis pause_not_negative : 0 <= validation_wait_time.

Let loop (fuel : nat) : option string -> Z -> M Data :=
  validate_text_loop fuel locator expected stop_texts max_wait_time
                     no_of_attempts validation_wait_time.

Lemma in_stop_texts_In (t : string) :
  in_stop_texts stop_texts t = true <-> In t (get_or stop_texts []).
Proof.
  assert (E : in_stop_texts stop_texts t
              = existsb (String.eqb t) (get_or stop_texts [])).
  { unfold in_stop_texts. now destruct stop_texts as [[|a l]|]. }
  rewrite E, existsb_exists. split.
  - intros [x [Hin Hx]]. apply String.eqb_eq in Hx. now subst.
  - intros Hin. exists t. split; [assumption|apply String.eqb_refl].
Qed.

Lemma idle_spec (el : WebElement) :
  idle expected stop_texts el = true <-> ~ In (text el) (get_or stop_texts []) /\ text el <> expected.
Proof.
  unfold idle. rewrite andb_true_iff, !negb_true_iff.
  rewrite <- in_stop_texts_In, String.eqb_neq.
  destruct (in_stop_texts stop_texts (text el)); intuition congruence.
Qed.

(** Resolving an element the page holds costs no time. *)
Lemma resolve_present (clickable : bool) (el : WebElement)
      (rest : list Response) (s : WebActions) :
  driver s = Present el :: rest ->
  _get_element_if_exist locator max_wait_time clickable s
  = (Returned (Some el),
     with_driver rest
       (record (Waited (_get_find_method locator) locator
                       max_wait_time clickable) s)).
Proof.
  intros Hd.
  unfold _get_element_if_exist, bind, try_except, time_time. cbn.
  replace (max_wait_time - (clock s - clock s)) with max_wait_time by lia.
  rewrite Z.max_r by lia.
  destruct (Z.eqb_spec max_wait_time 0) as [E|_]; [lia|].
  unfold until. cbn. rewrite Hd. reflexivity.
Qed.

(** Resolving an element the page never shows: with escalation off the
    handle is [None], once the whole wait has gone by. *)
Lemma resolve_absent (clickable : bool) (s : WebActions) :
  raise_exception s = false ->
  (driver s = [] \/ exists rest, driver s = Absent :: rest) ->
  exists s',
    _get_element_if_exist locator max_wait_time clickable s
    = (Returned None, s')
    /\ clock s' = clock s + max_wait_time
    /\ driver s' = tl (driver s)
    /\ raise_exception s' = false.
Proof.
  intros Hflag Hd.
  unfold _get_element_if_exist, bind, try_except, time_time. cbn.
  replace (max_wait_time - (clock s - clock s)) with max_wait_time by lia.
  rewrite Z.max_r by lia.
  destruct (Z.eqb_spec max_wait_time 0) as [E|_]; [lia|].
  unfold until. cbn.
  destruct Hd as [Hd|[rest Hd]]; rewrite Hd; cbn;
    unfold get_raise_exception; cbn; rewrite Hflag;
    eexists; (split; [reflexivity|cbn; auto]).
Qed.

(** One round of the loop on an element that is there. *)
Lemma loop_round (fuel : nat) (before : option string) (attempts : Z)
      (el : WebElement) (rest : list Response) (s : WebActions) :
  attempts < no_of_attempts ->
  driver s = Present el :: rest ->
  exists s1,
    driver s1 = rest /\ raise_exception s1 = raise_exception s
    /\ loop (S fuel) before attempts s
       = if in_stop_texts stop_texts (text el)
         then (Returned (mkData (Some (text el)) false), s1)
         else if String.eqb (text el) expected
              then (Returned (mkData (Some (text el)) true), s1)
              else loop fuel (Some (text el)) (attempts + 1)
                        (record (Slept validation_wait_time)
                           (with_clock (clock s1 + validation_wait_time) s1)).
Proof.
  intros Hlt Hd.
  eexists. split; [|split]; cycle 2.
  - unfold loop. cbn [validate_text_loop].
    destruct (Z.ltb_spec attempts no_of_attempts) as [_|]; [|lia].
    unfold bind at 1. rewrite (resolve_present true el rest s Hd).
    unfold bind at 1, set_element at 1. cbn [element_text].
    unfold bind at 1, ret at 1.
    destruct (in_stop_texts stop_texts (text el)); [reflexivity|].
    destruct (String.eqb (text el) expected); [reflexivity|].
    unfold bind at 1, time_sleep at 1.
    destruct (Z.ltb_spec validation_wait_time 0) as [|_]; [lia|].
    reflexivity.
  - reflexivity.
  - reflexivity.
Qed.

(** Rounds that see idle texts only leave the loop where it was, some
    attempts later. *)
Lemma skip_idle (pre : list WebElement) :
  forall (fuel : nat) (before : option string) (attempts : Z)
         (rest : list Response) (s : WebActions),
    Forall (fun el => idle expected stop_texts el = true) pre ->
    attempts + Z.of_nat (length pre) <= no_of_attempts ->
    driver s = map Present pre ++ rest ->
    exists s',
      driver s' = rest /\ raise_exception s' = raise_exception s
      /\ loop (length pre + fuel) before attempts s
         = loop fuel (last_seen pre before)
                (attempts + Z.of_nat (length pre)) s'.
Proof.
  induction pre as [|el pre IH]; intros fuel before attempts rest s Hidle Hle Hd.
  - exists s. cbn. rewrite Z.add_0_r. auto.
  - inversion Hidle as [|? ? Hel Hpre]; subst.
    cbn [length] in Hle. rewrite Nat2Z.inj_succ in Hle.
    destruct (loop_round (length pre + fuel) before attempts el
                         (map Present pre ++ rest) s)
      as (s1 & Hd1 & Hf1 & Hrun); [lia|exact Hd|].
    unfold idle in Hel. apply andb_true_iff in Hel as [Hs He].
    apply negb_true_iff in Hs, He. rewrite Hs, He in Hrun.
    destruct (IH fuel (Some (text el)) (attempts + 1) rest
                 (record (Slept validation_wait_time)
                    (with_clock (clock s1 + validation_wait_time) s1)))
      as (s' & Hd' & Hf' & Hrun'); [assumption|lia|exact Hd1|].
    exists s'. split; [exact Hd'|split].
    + rewrite Hf'. exact Hf1.
    + cbn [length Nat.add]. rewrite Hrun, Hrun'. cbn [last_seen fold_left].
      f_equal. rewrite Nat2Z.inj_succ. lia.
Qed.

(** All attempts used up on idle texts. *)
Lemma validate_exhausts (pre : list WebElement) (rest : list Response)
      (s : WebActions) :
  Forall (fun el => idle expected stop_texts el = true) pre ->
  Z.of_nat (length pre) = no_of_attempts ->
  driver s = map Present pre ++ rest ->
  exists s',
    validate_text locator expected stop_texts max_wait_time no_of_attempts
                  validation_wait_time s
    = (Returned (mkData (last_seen pre None) false), s')
    /\ driver s' = rest /\ raise_exception s' = raise_exception s.
Proof.
  intros Hidle Hlen Hd.
  destruct (skip_idle pre 1 None 0 rest s Hidle) as (s' & Hd' & Hf' & Hrun);
    [lia|exact Hd|].
  exists s'. split; [|auto].
  unfold validate_text. fold (loop (S (Z.to_nat no_of_attempts)) None 0).
  replace (S (Z.to_nat no_of_attempts)) with (length pre + 1)%nat by lia.
  rewrite Hrun. unfold loop. cbn [validate_text_loop].
  destruct (Z.ltb_spec (0 + Z.of_nat (length pre)) no_of_attempts); [lia|].
  reflexivity.
Qed.

(** The first text that is not idle settles the call at once. *)
Lemma validate_decides (pre : list WebElement) (el : WebElement)
      (rest : list Response) (s : WebActions) :
  Forall (fun el => idle expected stop_texts el = true) pre ->
  Z.of_nat (length pre) < no_of_attempts ->
  idle expected stop_texts el = false ->
  driver s = map Present pre ++ Present el :: rest ->
  exists s',
    validate_text locator expected stop_texts max_wait_time no_of_attempts
                  validation_wait_time s
    = (Returned (mkData (Some (text el))
                        (negb (in_stop_texts stop_texts (text el)))), s')
    /\ driver s' = rest /\ raise_exception s' = raise_exception s.
Proof.
  intros Hidle Hlen Hel Hd.
  destruct (skip_idle pre (S (Z.to_nat no_of_attempts - length pre)) None 0
                      (Present el :: rest) s Hidle)
    as (s1 & Hd1 & Hf1 & Hrun); [lia|exact Hd|].
  destruct (loop_round (Z.to_nat no_of_attempts - length pre)
                       (last_seen pre None) (0 + Z.of_nat (length pre))
                       el rest s1)
    as (s2 & Hd2 & Hf2 & Hrun2); [lia|exact Hd1|].
  exists s2. split; [|split; [exact Hd2|congruence]].
  unfold validate_text. fold (loop (S (Z.to_nat no_of_attempts)) None 0).
  replace (S (Z.to_nat no_of_attempts))
    with (length pre + S (Z.to_nat no_of_attempts - length pre))%nat by lia.
  rewrite Hrun, Hrun2.
  unfold idle in Hel. apply andb_false_iff in Hel.
  destruct (in_stop_texts stop_texts (text el)); [reflexivity|].
  destruct Hel as [Hel|Hel]; [discriminate|].
  apply negb_false_iff in Hel. rewrite Hel. reflexivity.
Qed.

(** A round whose resolution hands back [None] ends in the attribute
    error of [self.element.text]. *)
Lemma loop_round_none (fuel : nat) (before : option string) (attempts : Z)
      (s s1 : WebActions) :
  attempts < no_of_attempts ->
  _get_element_if_exist locator max_wait_time true s = (Returned None, s1) ->
  loop (S fuel) before attempts s = (Raised AttributeError, with_element None s1).
Proof.
  intros Hlt Hres. unfold loop. cbn [validate_text_loop].
  destruct (Z.ltb_spec attempts no_of_attempts) as [_|]; [|lia].
  unfold bind at 1. rewrite Hres. reflexivity.
Qed.

Lemma idle_split (els : list WebElement) :
  Forall (fun el => idle expected stop_texts el = true) els
  \/ exists pre el post,
      els = pre ++ el :: post
      /\ Forall (fun el => idle expected stop_texts el = true) pre /\ idle expected stop_texts el = false.
Proof.
  induction els as [|a els IH]; [now left|].
  destruct (idle expected stop_texts a) eqn:Ha.
  - destruct IH as [IH|(pre & el & post & -> & Hpre & Hel)].
    + left. now constructor.
    + right. exists (a :: pre), el, post. repeat split; auto.
  - right. exists [], a, els. repeat split; auto.
Qed.

Lemma idle_prefix_nth (pre : list WebElement) (j : nat) (t : string) :
  Forall (fun el => idle expected stop_texts el = true) pre ->
  nth_error (map text pre) j = Some t ->
  ~ In t (get_or stop_texts []) /\ t <> expected.
Proof.
  intros Hidle Hnth. apply nth_error_In in Hnth.
  apply in_map_iff in Hnth as (el & <- & Hin).
  apply idle_spec. rewrite Forall_forall in Hidle. auto.
Qed.

Lemma last_seen_nth (pre : list WebElement) (el : WebElement)
      (before : option string) :
  last_seen (pre ++ [el]) before = Some (text el).
Proof.
  unfold last_seen. rewrite fold_left_app. reflexivity.
Qed.

Lemma last_seen_last (els : list WebElement) (before : option string) :
  els <> [] ->
  last_seen els before = nth_error (map text els) (length els - 1).
Proof.
  destruct els as [|a l _] using rev_ind; [congruence|intros _].
  rewrite last_seen_nth, map_app, length_app. cbn [length map].
  rewrite nth_error_app2; rewrite length_map; [|lia].
  replace (length l + 1 - 1 - length l)%nat with 0%nat by lia.
  reflexivity.
Qed.

(** C1, with the stop texts looked at first: when each of the
    [no_of_attempts > 0] attempts finds the element, [validate_text]
    returns; the status is true exactly when some attempt sees the expected
    text while no attempt up to and including it sees a stop text; the data
    is the text of the last attempt made; the first attempt that sees a stop
    text ends the call there with status false, and the first that sees the
    expected text, when that is no stop text, ends it there with status
    true. *)
Theorem validate_text_verdict (els : list WebElement) (rest : list Response)
        (s : WebActions) :
  0 < no_of_attempts ->
  Z.of_nat (length els) = no_of_attempts ->
  driver s = map Present els ++ rest ->
  let obs := map text els in
  let stops := get_or stop_texts [] in
  exists (d : Data) (s' : WebActions) (k : nat),
    validate_text locator expected stop_texts max_wait_time no_of_attempts
                  validation_wait_time s = (Returned d, s')
    /\ (1 <= k <= length els)%nat
    /\ driver s' = map Present (skipn k els) ++ rest
    /\ data d = nth_error obs (k - 1)
    /\ (status d = true <->
        exists i, nth_error obs i = Some expected
                  /\ forall j t, (j <= i)%nat ->
                                 nth_error obs j = Some t -> ~ In t stops)
    /\ (forall i t,
           nth_error obs i = Some t ->
           (forall j u, (j < i)%nat -> nth_error obs j = Some u ->
                        ~ In u stops /\ u <> expected) ->
           (In t stops -> d = mkData (Some t) false /\ k = S i)
           /\ (t = expected -> ~ In t stops ->
               d = mkData (Some t) true /\ k = S i)).
Proof.
  intros Hpos Hlen Hd obs stops.
  destruct (idle_split els) as [Hidle|(pre & el & post & Hels & Hpre & Hel)].
  - (* every attempt sees an idle text *)
    destruct (validate_exhausts els rest s Hidle Hlen Hd) as (s' & Hrun & Hd' & _).
    assert (Hne : els <> []) by (intros ->; cbn in Hlen; lia).
    exists (mkData (last_seen els None) false), s', (length els).
    split; [exact Hrun|]. split; [lia|].
    split; [now rewrite skipn_all|].
    split; [now apply last_seen_last|].
    split.
    + cbn. split; [discriminate|].
      intros (i & Hi & _).
      now destruct (idle_prefix_nth els i expected Hidle Hi).
    + intros i t Hi _.
      destruct (idle_prefix_nth els i t Hidle Hi) as [Hns Hne'].
      split; intros; contradiction.
  - (* [el] is the first text that is not idle *)
    assert (Hlt : Z.of_nat (length pre) < no_of_attempts).
    { rewrite <- Hlen, Hels, length_app. cbn [length]. lia. }
    assert (Hd0 : driver s = map Present pre
                             ++ Present el :: (map Present post ++ rest)).
    { rewrite Hd, Hels, map_app, <- app_assoc. reflexivity. }
    destruct (validate_decides pre el _ s Hpre Hlt Hel Hd0)
      as (s' & Hrun & Hd' & _).
    assert (Hobs : obs = map text pre ++ text el :: map text post).
    { unfold obs. rewrite Hels, map_app. reflexivity. }
    assert (Hlow : forall j t, (j < length pre)%nat ->
                               nth_error obs j = Some t ->
                               ~ In t stops /\ t <> expected).
    { intros j t Hj Hnth. rewrite Hobs, nth_error_app1 in Hnth
        by (now rewrite length_map).
      now apply idle_prefix_nth with (pre := pre) (j := j). }
    assert (Hmid : nth_error obs (length pre) = Some (text el)).
    { rewrite Hobs, nth_error_app2 by (rewrite length_map; lia).
      rewrite length_map, Nat.sub_diag. reflexivity. }
    assert (Hnot : ~ (~ In (text el) stops /\ text el <> expected)).
    { intros H. apply idle_spec in H. congruence. }
    exists (mkData (Some (text el))
                   (negb (in_stop_texts stop_texts (text el)))),
           s', (S (length pre)).
    split; [exact Hrun|].
    split; [rewrite Hels, length_app; cbn [length]; lia|].
    split.
    { rewrite Hd', Hels, skipn_app, skipn_all2 by lia.
      replace (S (length pre) - length pre)%nat with 1%nat by lia.
      reflexivity. }
    split.
    { cbn [data]. replace (S (length pre) - 1)%nat with (length pre) by lia.
      now rewrite Hmid. }
    split.
    + cbn [status]. rewrite negb_true_iff. split.
      * intros Hns.
        assert (Hns' : ~ In (text el) stops).
        { intros Hin. apply in_stop_texts_In in Hin. congruence. }
        assert (Heq : text el = expected).
        { destruct (String.eqb_spec (text el) expected) as [E|E]; [exact E|].
          exfalso. apply Hnot. auto. }
        exists (length pre). split; [now rewrite Hmid, Heq|].
        intros j t Hj Hnth.
        destruct (Nat.eq_dec j (length pre)) as [->|Hneq].
        -- rewrite Hmid in Hnth. injection Hnth as <-. exact Hns'.
        -- apply (Hlow j t); [lia|exact Hnth].
      * intros (i & Hi & Hbefore).
        destruct (Nat.lt_ge_cases i (length pre)) as [Hil|Hil].
        -- now destruct (Hlow i expected Hil Hi).
        -- specialize (Hbefore (length pre) (text el) Hil Hmid).
           destruct (in_stop_texts stop_texts (text el)) eqn:E; [|reflexivity].
           apply in_stop_texts_In in E. contradiction.
    + intros i t Hi Hprev.
      destruct (Nat.lt_trichotomy i (length pre)) as [Hil|[->|Hil]].
      * destruct (Hlow i t Hil Hi) as [Hns Hne].
        split; intros; contradiction.
      * rewrite Hmid in Hi. injection Hi as <-. split.
        -- intros Hin. apply in_stop_texts_In in Hin. rewrite Hin. auto.
        -- intros _ Hns.
           destruct (in_stop_texts stop_texts (text el)) eqn:E; [|auto].
           apply in_stop_texts_In in E. contradiction.
      * exfalso. apply Hnot. exact (Hprev (length pre) (text el) Hil Hmid).
Qed.

(** C10: with escalation off, an attempt whose resolution finds nothing
    gets [None] for a handle, and [validate_text] then neither counts the
    attempt nor returns a status: reading [.text] of the handle raises
    [AttributeError].  The attempts before see idle texts, so that the
    attempt is made. *)
Theorem validate_text_absent_handle (pre : list WebElement)
        (rest : list Response) (s : WebActions) :
  raise_exception s = false ->
  Forall (fun el => ~ In (text el) (get_or stop_texts [])
                    /\ text el <> expected) pre ->
  Z.of_nat (length pre) < no_of_attempts ->
  driver s = map Present pre ++ Absent :: rest ->
  exists s',
    validate_text locator expected stop_texts max_wait_time no_of_attempts
                  validation_wait_time s = (Raised AttributeError, s')
    /\ element s' = None
    /\ driver s' = rest.
Proof.
  intros Hflag Hpre Hlt Hd.
  assert (Hidle : Forall (fun el => idle expected stop_texts el = true) pre).
  { eapply Forall_impl; [|exact Hpre]. intros el. apply idle_spec. }
  destruct (skip_idle pre (S (Z.to_nat no_of_attempts - length pre)) None 0
                      (Absent :: rest) s Hidle)
    as (s0 & Hd0 & Hf0 & Hrun); [lia|exact Hd|].
  destruct (resolve_absent true s0) as (s1 & Hres & _ & Hd1 & _);
    [congruence|right; now exists rest|].
  exists (with_element None s1). split; [|split].
  - unfold validate_text. fold (loop (S (Z.to_nat no_of_attempts)) None 0).
    replace (S (Z.to_nat no_of_attempts))
      with (length pre + S (Z.to_nat no_of_attempts - length pre))%nat by lia.
    rewrite Hrun. apply loop_round_none; [lia|exact Hres].
  - reflexivity.
  - cbn. rewrite Hd1, Hd0. reflexivity.
Qed.

End Validation.

(** [validate_text] gives its loop fuel enough, whatever the page does. *)
Lemma validate_text_loop_fuel (locator expected : string)
      (stop_texts : option (list string))
      (max_wait_time no_of_attempts validation_wait_time : Z) (fuel : nat) :
  forall (before : option string) (attempts : Z) (s : WebActions),
    (Z.to_nat (no_of_attempts - attempts) < fuel)%nat ->
    fst (validate_text_loop fuel locator expected stop_texts max_wait_time
                            no_of_attempts validation_wait_time
                            before attempts s) <> NoFuel.
Proof.
  induction fuel as [|fuel IH]; intros before attempts s Hfuel; [lia|].
  cbn [validate_text_loop].
  destruct (Z.ltb_spec attempts no_of_attempts) as [Hlt|_]; [|discriminate].
  apply bind_fuel; [apply resolve_fuel|]. intros el s1.
  apply bind_fuel; [discriminate|]. intros [] s2.
  apply bind_fuel; [destruct el; discriminate|]. intros observed s3.
  destruct (in_stop_texts stop_texts observed); [discriminate|].
  destruct (String.eqb observed expected); [discriminate|].
  apply bind_fuel.
  - unfold time_sleep. destruct (validation_wait_time <? 0); discriminate.
  - intros [] s4. apply IH. lia.
Qed.

Lemma validate_text_fuel (locator expected : string)
      (stop_texts : option (list string))
      (max_wait_time no_of_attempts validation_wait_time : Z) (s : WebActions) :
  fst (validate_text locator expected stop_texts max_wait_time no_of_attempts
                     validation_wait_time s) <> NoFuel.
Proof.
  unfold validate_text. apply validate_text_loop_fuel.
  rewrite Z.sub_0_r. lia.
Qed.

(** C1 as the specification has it fails where the expected text is also a
    stop text: the attempt that sees it ends the call with status false. *)
Lemma validate_text_stop_text_wins :
  fst (validate_text "status" "done" (Some ["done"%string]) (300 * second) 3
                     (2 * second) (fresh [Present (showing "done")]))
  = Returned (mkData (Some "done"%string) false).
Proof. reflexivity. Qed.

Lemma validate_text_verdict_witness :
  exists d s',
    validate_text "status" "done" (Some ["error"%string]) (300 * second) 3
                  (2 * second)
                  (fresh [Present (showing "busy"); Present (showing "done");
                          Present (showing "late")])
    = (Returned d, s')
    /\ status d = true /\ data d = Some "done"%string.
Proof.
  destruct (validate_text_verdict
              "status" "done" (Some ["error"%string]) (300 * second) 3
              (2 * second) ltac:(reflexivity) ltac:(discriminate)
              [showing "busy"; showing "done"; showing "late"] []
              (fresh [Present (showing "busy"); Present (showing "done");
                      Present (showing "late")])
              ltac:(reflexivity) ltac:(reflexivity) ltac:(reflexivity))
    as (d & s' & k & Hrun & _ & _ & _ & Hstatus & Hfirst).
  exists d, s'. split; [exact Hrun|].
  destruct (Hfirst 1%nat "done"%string ltac:(reflexivity)) as [_ Hdone].
  - intros [|j] u Hj Hu; [|lia]. injection Hu as <-.
    split; [|discriminate]. cbn. intros [H|[]]. discriminate.
  - destruct Hdone as [-> _]; [reflexivity| |split; reflexivity].
    cbn. intros [H|[]]. discriminate.
Defined.

Lemma validate_text_absent_handle_witness :
  exists s',
    validate_text "status" "done" (Some ["error"%string]) (300 * second) 3
                  (2 * second)
                  (fresh [Present (showing "busy"); Absent])
    = (Raised AttributeError, s')
    /\ element s' = None /\ driver s' = [].
Proof.
  apply (validate_text_absent_handle
           "status" "done" (Some ["error"%string]) (300 * second) 3
           (2 * second) ltac:(reflexivity) ltac:(discriminate)
           [showing "busy"] []
           (fresh [Present (showing "busy"); Absent])).
  - reflexivity.
  - constructor; [|constructor]. split; [|discriminate].
    cbn. intros [H|[]]. discriminate H.
  - reflexivity.
  - reflexivity.
Defined.

(** ** The polling wait [wait_until_text_matches] *)

Section PollingWait.

Variables (locator expected : string) (is_clickable : bool).

(** When the element never shows up, each round first waits for the whole
    of what is left of [max_wait_time] and then sleeps a second: after
    [k] rounds twice the time gone by is [k * k + 3 * k] seconds. *)
Lemma wait_for_absent_element (k : nat) :
  forall (fuel : nat) (s : WebActions),
    (k < fuel)%nat ->
    raise_exception s = false ->
    driver s = [] ->
    exists s',
      wait_until_text_matches_loop fuel locator expected
                                   (Z.of_nat k * second) is_clickable s
      = (Returned false, s')
      /\ 2 * (clock s' - clock s)
         = (Z.of_nat k * Z.of_nat k + 3 * Z.of_nat k) * second
      /\ raise_exception s' = false /\ driver s' = [].
Proof.
  induction k as [|k IH]; intros fuel s Hfuel Hflag Hd;
    (destruct fuel as [|fuel]; [lia|]).
  - exists s. split; [reflexivity|]. split; [change (Z.of_nat 0) with 0; lia|auto].
  - cbn [wait_until_text_matches_loop].
    assert (Hpos : 0 < Z.of_nat (S k) * second) by (unfold second; lia).
    destruct (Z.ltb_spec 0 (Z.of_nat (S k) * second)) as [_|]; [|lia].
    destruct (resolve_absent locator (Z.of_nat (S k) * second) Hpos
                             is_clickable s Hflag (or_introl Hd))
      as (s1 & Hres & Hc1 & Hd1 & Hf1).
    unfold bind at 1. rewrite Hres.
    unfold bind at 1, set_element at 1. cbn [text_matches].
    unfold bind at 1, time_sleep at 1.
    change (1 * second <? 0) with false. cbv iota.
    replace (Z.of_nat (S k) * second - 1 * second) with (Z.of_nat k * second)
      by lia.
    match goal with
    | |- context [wait_until_text_matches_loop fuel _ _ _ _ ?st] =>
        destruct (IH fuel st) as (s' & Hrun & Hc' & Hf' & Hd')
    end.
    + lia.
    + exact Hf1.
    + cbn. rewrite Hd1, Hd. reflexivity.
    + exists s'. split; [exact Hrun|]. split; [|auto].
      cbn [clock record with_clock with_element] in Hc'.
      rewrite Hc1 in Hc'. rewrite Nat2Z.inj_succ in *. lia.
Qed.

(** The wrapper gives the loop fuel enough, whatever the page does. *)
Lemma wait_until_text_matches_loop_fuel (fuel : nat) :
  forall (max_wait_time : Z) (s : WebActions),
    (Z.to_nat max_wait_time < fuel)%nat ->
    fst (wait_until_text_matches_loop fuel locator expected max_wait_time
                                      is_clickable s) <> NoFuel.
Proof.
  induction fuel as [|fuel IH]; intros max_wait_time s Hfuel; [lia|].
  cbn [wait_until_text_matches_loop].
  destruct (Z.ltb_spec 0 max_wait_time) as [Hpos|_]; [|discriminate].
  apply bind_fuel; [apply resolve_fuel|]. intros el s1.
  apply bind_fuel; [discriminate|]. intros [] s2.
  destruct (text_matches el expected); [discriminate|].
  apply bind_fuel; [discriminate|]. intros [] s3.
  apply IH. unfold second. lia.
Qed.

Lemma wait_until_text_matches_fuel (max_wait_time : Z) (s : WebActions) :
  fst (wait_until_text_matches locator expected max_wait_time is_clickable s)
  <> NoFuel.
Proof.
  unfold wait_until_text_matches. apply wait_until_text_matches_loop_fuel. lia.
Qed.

(** An element that is there but never shows the text costs the countdown
    and no more: [k] rounds of one second each. *)
Lemma wait_for_other_text (k : nat) :
  forall (fuel : nat) (els : list WebElement) (rest : list Response)
         (s : WebActions),
    (k < fuel)%nat ->
    length els = k ->
    Forall (fun el => text el <> expected) els ->
    driver s = map Present els ++ rest ->
    exists s',
      wait_until_text_matches_loop fuel locator expected
                                   (Z.of_nat k * second) is_clickable s
      = (Returned false, s')
      /\ clock s' - clock s = Z.of_nat k * second
      /\ driver s' = rest.
Proof.
  induction k as [|k IH]; intros fuel els rest s Hfuel Hlen Hels Hd;
    (destruct fuel as [|fuel]; [lia|]).
  - destruct els; [|discriminate]. exists s.
    split; [reflexivity|]. split; [change (Z.of_nat 0) with 0; lia|exact Hd].
  - destruct els as [|el els]; [discriminate|].
    inversion Hels as [|? ? Hel Hels']; subst.
    cbn [wait_until_text_matches_loop].
    assert (Hpos : 0 < Z.of_nat (S k) * second) by (unfold second; lia).
    destruct (Z.ltb_spec 0 (Z.of_nat (S k) * second)) as [_|]; [|lia].
    unfold bind at 1.
    rewrite (resolve_present locator (Z.of_nat (S k) * second) Hpos
                             is_clickable el (map Present els ++ rest) s Hd).
    unfold bind at 1, set_element at 1. cbn [text_matches].
    apply String.eqb_neq in Hel. rewrite Hel.
    unfold bind at 1, time_sleep at 1.
    change (1 * second <? 0) with false. cbv iota.
    replace (Z.of_nat (S k) * second - 1 * second) with (Z.of_nat k * second)
      by lia.
    match goal with
    | |- context [wait_until_text_matches_loop fuel _ _ _ _ ?st] =>
        destruct (IH fuel els rest st) as (s' & Hrun & Hc' & Hd')
    end.
    + lia.
    + now injection Hlen.
    + exact Hels'.
    + reflexivity.
    + exists s'. split; [exact Hrun|]. split; [|exact Hd'].
      cbn [clock record with_clock with_element with_driver] in Hc'.
      rewrite Nat2Z.inj_succ. lia.
Qed.

End PollingWait.

(** C4, at a timeout of two seconds and an element that never shows up:
    the call answers [False] five seconds after it began, two seconds
    beyond the timeout plus one second-long interval. *)
Theorem wait_until_text_matches_overruns :
  exists s',
    wait_until_text_matches "status" "done" (2 * second) false (fresh [])
    = (Returned false, s')
    /\ clock s' - clock (fresh []) = 5 * second
    /\ 2 * second + 1 * second < clock s' - clock (fresh []).
Proof.
  eexists. split; [reflexivity|]. split; reflexivity.
Qed.

(** ** SelectionDispatcher *)

Section Selection.

Variables (locator : string) (max_wait_time : Z) (is_clickable : bool).

(** The guard of both methods goes by truthiness. *)
Lemma none_given_iff (index visible_text value : option PyVal) :
  none_given index visible_text value = true
  <-> truthy index = false /\ truthy visible_text = false
      /\ truthy value = false.
Proof.
  unfold none_given. cbn.
  destruct (truthy index), (truthy visible_text), (truthy value); cbn;
    intuition discriminate.
Qed.

Lemma none_given_absent : none_given None None None = true.
Proof. reflexivity. Qed.

(** An exception that leaves the resolver is the library's own error or
    one that [Exception] does not cover. *)
Lemma resolve_raised (clickable : bool) (e : exn) (s s' : WebActions) :
  _get_element_if_exist locator max_wait_time clickable s = (Raised e, s') ->
  e = WebElementNotFoundError \/ is_Exception e = false.
Proof.
  unfold _get_element_if_exist, bind at 1, time_time, try_except.
  match goal with
  | |- context [match ?body with _ => _ end] => destruct body as [[a|e0|] s1]
  end; try discriminate.
  destruct (is_Exception e0) eqn:E.
  - unfold bind, get_raise_exception.
    destruct (raise_exception s1); unfold raise, ret; intros [= <- <-]; auto.
  - intros [= <- <-]. auto.
Qed.

Lemma pick_method_raised (action : string)
      (locals : list (string * option PyVal)) (p : string * PyVal)
      (o : option PyVal) (e : exn) (s s' : WebActions) :
  pick_method action locals p o s = (Raised e, s') -> e = IndexError.
Proof.
  unfold pick_method, first_local. destruct o as [v|]; [|discriminate].
  unfold bind.
  match goal with
  | |- context [filter ?f ?l] => destruct (filter f l) as [|ia l']
  end; unfold raise, ret; now intros [= <- <-].
Qed.

(** The dispatcher itself never raises [ParameterMissingError]. *)
Lemma perform_selection_not_missing (action : string)
      (index visible_text value : option PyVal) (clickable : bool)
      (s s' : WebActions) :
  _perform_selection_action locator action max_wait_time index visible_text
                            value clickable s
  <> (Raised ParameterMissingError, s').
Proof.
  unfold _perform_selection_action. intros H.
  apply bind_raised in H as [H|(el & s1 & _ & H)].
  { apply resolve_raised in H as [H|H]; discriminate. }
  apply bind_raised in H as [H|([] & s2 & _ & H)]; [discriminate|].
  destruct el as [el|]; [|discriminate].
  destruct (negb (String.eqb (tag_name el) "select")); [discriminate|].
  apply bind_raised in H as [H|(p0 & s3 & _ & H)].
  { apply pick_method_raised in H. discriminate. }
  apply bind_raised in H as [H|(p1 & s4 & _ & H)].
  { apply pick_method_raised in H. discriminate. }
  apply bind_raised in H as [H|(p2 & s5 & _ & H)].
  { apply pick_method_raised in H. discriminate. }
  apply try_except_reraise in H as [H|H]; discriminate.
Qed.

(** X13: [select_element] raises [ParameterMissingError] exactly when none
    of the three arguments is truthy ([None], [0], the empty string and
    [False] are not), and then
    nothing else has happened. *)
Lemma select_element_missing_iff (index visible_text value : option PyVal)
      (s s' : WebActions) :
  select_element locator max_wait_time is_clickable index visible_text value s
  = (Raised ParameterMissingError, s')
  <-> none_given index visible_text value = true /\ s' = s.
Proof.
  unfold select_element.
  destruct (none_given index visible_text value).
  - unfold raise. split; [intros [= <-]; auto|intros [_ ->]; reflexivity].
  - split; [|intros [[=] _]].
    intros H. now apply perform_selection_not_missing in H.
Qed.

Lemma deselect_element_missing_iff (index visible_text value : option PyVal)
      (s s' : WebActions) :
  deselect_element locator max_wait_time index visible_text value s
  = (Raised ParameterMissingError, s')
  <-> none_given index visible_text value = true /\ s' = s.
Proof.
  unfold deselect_element.
  destruct (none_given index visible_text value).
  - unfold raise. split; [intros [= <-]; auto|intros [_ ->]; reflexivity].
  - split; [|intros [[=] _]].
    intros H. now apply perform_selection_not_missing in H.
Qed.

(** A truthy index, alone, on a [<select>] that is there: the primitive
    by index is the one called, unless the index is also the number of
    seconds of [max_wait_time]. *)
Lemma select_by_index_invoked (i : Z) (el : WebElement)
      (rest : list Response) (s : WebActions) :
  0 < max_wait_time ->
  i <> 0 ->
  as_seconds max_wait_time <> Some (PInt i) ->
  driver s = Present el :: rest ->
  tag_name el = "select"%string ->
  accepts el "select_by_index" (PInt i) = true ->
  exists s',
    select_element locator max_wait_time is_clickable (Some (PInt i)) None None s
    = (Returned tt, s')
    /\ journal s'
       = Invoked "select_by_index" (PInt i)
           :: Waited (_get_find_method locator) locator max_wait_time
                     is_clickable
           :: journal s.
Proof.
  intros Hpos Hi Hsec Hd Htag Hacc.
  unfold select_element, none_given. cbn [existsb truthy].
  apply Z.eqb_neq in Hi. rewrite Hi. cbn [negb orb].
  unfold _perform_selection_action. unfold bind at 1.
  rewrite (resolve_present locator max_wait_time Hpos is_clickable el rest s Hd).
  unfold bind at 1, set_element at 1. rewrite Htag. cbn [String.eqb negb].
  change (String.eqb "select" "select") with true. cbv iota.
  assert (Hloc : as_seconds max_wait_time = None
                 \/ exists q, as_seconds max_wait_time = Some (PInt q)
                              /\ (q =? i) = false).
  { unfold as_seconds in *. destruct (max_wait_time mod second =? 0); [|now left].
    right. eexists. split; [reflexivity|].
    apply Z.eqb_neq. congruence. }
  unfold pick_method, first_local. cbn [filter snd fst py_eq].
  destruct Hloc as [->|(q & -> & Hq)]; [|cbn [py_eq]; rewrite Hq];
    rewrite Z.eqb_refl; unfold bind, ret, try_except, invoke;
    cbn -[accepts]; rewrite Hacc; eexists; split; reflexivity.
Qed.

(** C3, at [index=0]: the index is supplied, yet both methods raise
    [ParameterMissingError], before the element is looked for. *)
Theorem select_element_index_zero_is_missing :
  forall s : WebActions,
    select_element locator max_wait_time is_clickable
                   (Some (PInt 0)) None None s
    = (Raised ParameterMissingError, s)
    /\ deselect_element locator max_wait_time (Some (PInt 0)) None None s
       = (Raised ParameterMissingError, s).
Proof. intros s. split; reflexivity. Qed.

End Selection.

Example select_by_index_on_dropdown :
  select_element "country" (300 * second) true (Some (PInt 2)) None None
                 (fresh [Present dropdown])
  = (Returned tt,
     mkWebActions false (Some dropdown) 0 []
                  [Invoked "select_by_index" (PInt 2);
                   Waited ID "country" (300 * second) true]).
Proof. reflexivity. Qed.

Example deselect_by_value_on_dropdown :
  deselect_element "country" (300 * second) None None (Some (PStr "fr"))
                   (fresh [Present dropdown])
  = (Returned tt,
     mkWebActions false (Some dropdown) 0 []
                  [Invoked "deselect_by_value" (PStr "fr");
                   Waited ID "country" (300 * second) true]).
Proof. reflexivity. Qed.

(** The method name is found by value among the local variables: an index
    equal to the wait time in seconds asks for [select_by_max_wait_time]. *)
Example select_index_equal_to_wait_time :
  select_element "country" (2 * second) true (Some (PInt 2)) None None
                 (fresh [Present dropdown])
  = (Raised SelectionNotFoundError,
     mkWebActions false (Some dropdown) 0 []
                  [Waited ID "country" (2 * second) true]).
Proof. reflexivity. Qed.

(** An element that is not found: nothing is selected and nothing raised. *)
Example select_on_absent_element :
  select_element "country" (2 * second) true (Some (PInt 1)) None None
                 (fresh [Absent])
  = (Returned tt,
     mkWebActions false None (2 * second) []
                  [Waited ID "country" (2 * second) true]).
Proof. reflexivity. Qed.

(** ** StepOrchestrator *)

Lemma prefix_refl (d : string) : String.prefix d d = true.
Proof.
  apply prefix_iff_append. exists EmptyString.
  induction d as [|c d IH]; cbn; congruence.
Qed.

Lemma contains_refl (d : string) : contains d d = true.
Proof. destruct d; cbn -[String.prefix]; now rewrite prefix_refl. Qed.

Lemma any_contains_some (d : string) (stops : list string) (s : WebActions) :
  any_contains (Some d) stops s = (Returned (existsb (contains d) stops), s).
Proof.
  induction stops as [|t stops IH]; cbn; [reflexivity|].
  destruct (contains d t); [reflexivity|exact IH].
Qed.

Lemma any_contains_member (d : string) (stops : list string) :
  In d stops -> existsb (contains d) stops = true.
Proof.
  intros Hin. apply existsb_exists. exists d. split; [exact Hin|].
  apply contains_refl.
Qed.

(** The test after a pass goes by substring: a captured ["err"] is found in
    the stop text ["error"]. *)
Example stop_check_goes_by_substring :
  stop_check (Some "err"%string) [click_submit; validate_status] (fresh [])
  = (Returned true, fresh []).
Proof. reflexivity. Qed.

(** With nothing captured and stop texts on the last step, the test itself
    fails. *)
Example stop_check_without_data :
  stop_check None [click_submit; validate_status] (fresh [])
  = (Raised TypeError, fresh []).
Proof. reflexivity. Qed.

Section Orchestrator.

Variables (page : PageAction) (step_wait_time : Z).

(** No action touches the wait time or the attempts counter. *)
Lemma dispatch_frame (step : Step.t) (l l' : Loop.t) (s s' : WebActions) :
  dispatch page step l s = (Returned l', s') ->
  Loop.max_wait_time l' = Loop.max_wait_time l
  /\ Loop.no_of_attempts l' = Loop.no_of_attempts l.
Proof.
  unfold dispatch. intros H.
  repeat match type of H with
         | context [if String.eqb ?a ?b then _ else _] =>
             destruct (String.eqb a b)
         end;
    try (apply bind_returned in H as (a & s1 & _ & H));
    unfold ret in H; injection H as <- <-; auto.
Qed.

Lemma run_step_frame (step : Step.t) (l l' : Loop.t) (s s' : WebActions) :
  run_step page step_wait_time step l s = (Returned l', s') ->
  Loop.max_wait_time l'
  = get_or (Step.max_wait_time step) (Loop.max_wait_time l)
  /\ Loop.no_of_attempts l'
     = get_or (Step.no_of_attempts step) (Loop.no_of_attempts l).
Proof.
  unfold run_step. intros H.
  apply bind_returned in H as (l1 & s1 & Hd & H).
  apply bind_returned in H as ([] & s2 & _ & H).
  unfold ret in H. injection H as <- <-.
  now apply dispatch_frame in Hd.
Qed.

Lemma run_pass_counter (steps : list Step.t) :
  forall (l l' : Loop.t) (s s' : WebActions),
    run_pass page step_wait_time steps l s = (Returned l', s') ->
    Loop.no_of_attempts l' = attempts_after steps (Loop.no_of_attempts l).
Proof.
  induction steps as [|step steps IH]; intros l l' s s' H.
  - cbn in H. unfold ret in H. now injection H as <- <-.
  - cbn [run_pass] in H.
    apply bind_returned in H as (l1 & s1 & Hstep & H).
    apply IH in H. apply run_step_frame in Hstep as [_ Hstep].
    cbn. unfold attempts_after in H. now rewrite <- Hstep.
Qed.

Lemma attempts_after_override (pre post : list Step.t) (step : Step.t)
      (k n : Z) :
  Step.no_of_attempts step = Some k ->
  Forall (fun st => Step.no_of_attempts st = None) post ->
  attempts_after (pre ++ step :: post) n = k.
Proof.
  intros Hk Hpost. unfold attempts_after.
  rewrite fold_left_app. cbn [fold_left]. rewrite Hk. cbn [get_or].
  clear Hk. induction Hpost as [|st post Hst _ IH]; [reflexivity|].
  cbn [fold_left]. rewrite Hst. exact IH.
Qed.

(** What one turn of the [while] loop does once its pass has returned. *)
Lemma repeat_loop_turn (fuel : nat) (steps : list Step.t) (l l1 : Loop.t)
      (s s1 : WebActions) :
  0 < Loop.no_of_attempts l ->
  run_pass page step_wait_time steps l s = (Returned l1, s1) ->
  repeat_loop (S fuel) page step_wait_time steps l s
  = if Loop.break_flag l1
    then (Returned (Loop.mk (Loop.max_wait_time l1)
                            (Loop.no_of_attempts l1 - 1)
                            (Loop.data l1) (Loop.break_flag l1)), s1)
    else
      bind (stop_check (Loop.data l1) steps)
           (fun hit =>
              if hit
              then ret (Loop.mk (Loop.max_wait_time l1)
                                (Loop.no_of_attempts l1 - 1)
                                (Loop.data l1) true)
              else repeat_loop fuel page step_wait_time steps
                     (Loop.mk (Loop.max_wait_time l1)
                              (Loop.no_of_attempts l1 - 1)
                              (Loop.data l1) (Loop.break_flag l1))) s1.
Proof.
  intros Hpos Hpass. cbn [repeat_loop].
  destruct (Z.ltb_spec 0 (Loop.no_of_attempts l)) as [_|]; [|lia].
  unfold bind at 1. rewrite Hpass. cbn [Loop.break_flag Loop.data
    Loop.max_wait_time Loop.no_of_attempts].
  destruct (Loop.break_flag l1); reflexivity.
Qed.

(** C2: after a pass that leaves the success flag down, the captured data
    is looked up in the stop texts of the last step only: if it is one of
    them the loop ends there, whichever step captured it and whether or
    not a [validate_text] step matched.  More exactly the loop ends there
    when the data occurs inside one of these stop texts and goes on when it
    does not; if the last step has no stop texts the loop goes on, whatever
    the stop texts of the other steps. *)
Theorem stop_text_of_final_step_ends_loop
        (fuel : nat) (init : list Step.t) (final : Step.t)
        (l l1 : Loop.t) (s s1 : WebActions) :
  0 < Loop.no_of_attempts l ->
  run_pass page step_wait_time (init ++ [final]) l s = (Returned l1, s1) ->
  Loop.break_flag l1 = false ->
  let ended d :=
    (Returned (Loop.mk (Loop.max_wait_time l1) (Loop.no_of_attempts l1 - 1)
                       (Some d) true), s1) in
  let resumed :=
    repeat_loop fuel page step_wait_time (init ++ [final])
                (Loop.mk (Loop.max_wait_time l1) (Loop.no_of_attempts l1 - 1)
                         (Loop.data l1) false) s1 in
  (forall d stops,
      Loop.data l1 = Some d ->
      Step.stop_texts final = Some stops ->
      In d stops ->
      repeat_loop (S fuel) page step_wait_time (init ++ [final]) l s = ended d)
  /\ (forall d stops,
         Loop.data l1 = Some d ->
         Step.stop_texts final = Some stops ->
         repeat_loop (S fuel) page step_wait_time (init ++ [final]) l s
         = if existsb (contains d) stops then ended d else resumed)
  /\ (Step.stop_texts final = None ->
      repeat_loop (S fuel) page step_wait_time (init ++ [final]) l s = resumed).
Proof.
  intros Hpos Hpass Hflag ended resumed. subst ended resumed.
  rewrite (repeat_loop_turn fuel _ l l1 s s1 Hpos Hpass), Hflag.
  unfold stop_check. rewrite rev_unit.
  assert (Hexact : forall d stops,
             Loop.data l1 = Some d ->
             Step.stop_texts final = Some stops ->
             bind (any_contains (Loop.data l1)
                                (get_or (Step.stop_texts final) []))
                  (fun hit =>
                     if hit
                     then ret (Loop.mk (Loop.max_wait_time l1)
                                       (Loop.no_of_attempts l1 - 1)
                                       (Loop.data l1) true)
                     else repeat_loop fuel page step_wait_time (init ++ [final])
                            (Loop.mk (Loop.max_wait_time l1)
                                     (Loop.no_of_attempts l1 - 1)
                                     (Loop.data l1) false)) s1
             = if existsb (contains d) stops
               then (Returned (Loop.mk (Loop.max_wait_time l1)
                                       (Loop.no_of_attempts l1 - 1)
                                       (Some d) true), s1)
               else repeat_loop fuel page step_wait_time (init ++ [final])
                      (Loop.mk (Loop.max_wait_time l1)
                               (Loop.no_of_attempts l1 - 1)
                               (Loop.data l1) false) s1).
  { intros d stops Hdata Hstops. rewrite Hdata, Hstops. cbn [get_or].
    unfold bind. rewrite any_contains_some.
    destruct (existsb (contains d) stops); reflexivity. }
  split; [|split].
  - intros d stops Hdata Hstops Hin.
    rewrite (Hexact d stops Hdata Hstops), (any_contains_member d stops Hin).
    reflexivity.
  - exact Hexact.
  - intros Hnone. rewrite Hnone. reflexivity.
Qed.

(** C6: a step that carries [no_of_attempts] overwrites the one counter of
    the run.  Whatever the counter was, it holds the step's value once the
    step has run, keeps it through the later steps of the pass that bring
    none of their own, and the [while] test that follows the pass is made
    on that value less one, not on what the caller passed. *)
Theorem attempts_override_is_shared (step : Step.t) (k : Z) :
  Step.no_of_attempts step = Some k ->
  (forall l l' s s',
      run_step page step_wait_time step l s = (Returned l', s') ->
      Loop.no_of_attempts l' = k)
  /\ (forall pre post l l' s s',
         Forall (fun st => Step.no_of_attempts st = None) post ->
         run_pass page step_wait_time (pre ++ step :: post) l s
         = (Returned l', s') ->
         Loop.no_of_attempts l' = k)
  /\ (forall fuel pre post l l' s s',
         Forall (fun st => Step.no_of_attempts st = None) post ->
         0 < Loop.no_of_attempts l ->
         run_pass page step_wait_time (pre ++ step :: post) l s
         = (Returned l', s') ->
         Loop.break_flag l' = false ->
         stop_check (Loop.data l') (pre ++ step :: post) s'
         = (Returned false, s') ->
         repeat_loop (S fuel) page step_wait_time (pre ++ step :: post) l s
         = repeat_loop fuel page step_wait_time (pre ++ step :: post)
             (Loop.mk (Loop.max_wait_time l') (k - 1) (Loop.data l') false)
             s').
Proof.
  intros Hk. split; [|split].
  - intros l l' s s' H. apply run_step_frame in H as [_ H].
    now rewrite H, Hk.
  - intros pre post l l' s s' Hpost H. apply run_pass_counter in H.
    now rewrite H, (attempts_after_override pre post step k _ Hk Hpost).
  - intros fuel pre post l l' s s' Hpost Hpos Hpass Hflag Hcheck.
    rewrite (repeat_loop_turn fuel _ l l' s s' Hpos Hpass), Hflag.
    unfold bind. rewrite Hcheck.
    apply run_pass_counter in Hpass.
    now rewrite Hpass, (attempts_after_override pre post step k _ Hk Hpost).
Qed.

End Orchestrator.

Lemma stop_text_of_final_step_ends_loop_witness :
  exists l' s',
    repeat_loop 1 quiet (2 * second) [click_submit; validate_status]
                (Loop.mk (300 * second) 3 None false)
                (fresh [Present button; Present (showing "error")])
    = (Returned l', s')
    /\ Loop.break_flag l' = true
    /\ Loop.data l' = Some "error"%string
    /\ Loop.no_of_attempts l' = 2.
Proof.
  pose proof (fun l1 s1 =>
                stop_text_of_final_step_ends_loop
                  quiet (2 * second) 0 [click_submit] validate_status
                  (Loop.mk (300 * second) 3 None false) l1
                  (fresh [Present button; Present (showing "error")]) s1)
    as T.
  edestruct T as (Hstop & _ & _).
  - reflexivity.
  - cbn [app]. reflexivity.
  - reflexivity.
  - eexists. eexists. split.
    + apply (Hstop "error"%string ["error"%string]);
        [reflexivity|reflexivity|now left].
    + repeat split.
Defined.

Lemma attempts_override_is_shared_witness :
  exists l' s',
    run_pass quiet (2 * second) [click_submit_with 1; click_submit]
             (Loop.mk (300 * second) 3 None false) (fresh [])
    = (Returned l', s')
    /\ Loop.no_of_attempts l' = 1.
Proof.
  destruct (attempts_override_is_shared quiet (2 * second)
              (click_submit_with 1) 1 eq_refl) as (_ & Hpass & _).
  eexists. eexists. split; [reflexivity|].
  eapply Hpass with (pre := []) (post := [click_submit])
                    (l := Loop.mk (300 * second) 3 None false)
                    (s := fresh []).
  - repeat constructor.
  - reflexivity.
Defined.

(** A stop text seen by the last step ends the run with the success flag
    up: the verdict holds the stop text and a true status. *)
Example stop_text_reports_success :
  exists s',
    repeat_steps_until_success 3 quiet [click_submit; validate_status]
                               (300 * second) 3 (2 * second) true true
                               (fresh [Present button;
                                       Present (showing "error")])
    = (Returned (WithData (mkData (Some "error"%string) true)), s').
Proof. eexists. reflexivity. Qed.

(** With [no_of_attempts] set to one on a step, a caller who asked for three
    passes gets a single one. *)
Example override_of_one_allows_one_pass :
  exists s',
    repeat_steps_until_success 3 quiet [click_submit_with 1; validate_status]
                               (300 * second) 3 (2 * second) false true
                               (fresh [Present button;
                                       Present (showing "busy");
                                       Present (showing "done")])
    = (Returned (WithData (mkData (Some "busy"%string) false)), s')
    /\ driver s' = [Present (showing "done")].
Proof. eexists. split; reflexivity. Qed.

(** With it set to two, the loop is never through: each pass puts the
    counter back to two before it is taken down to one. *)
Lemma override_of_two_never_exhausts (fuel : nat) :
  forall (l : Loop.t) (s : WebActions),
    0 < Loop.no_of_attempts l ->
    Loop.data l = None ->
    Loop.break_flag l = false ->
    fst (repeat_loop fuel quiet 0 [read_url_with 2] l s) = NoFuel.
Proof.
  induction fuel as [|fuel IH]; intros l s Hpos Hdata Hflag; [reflexivity|].
  cbn [repeat_loop].
  destruct (Z.ltb_spec 0 (Loop.no_of_attempts l)) as [_|]; [|lia].
  cbn -[repeat_loop]. rewrite Hflag, Hdata. cbn -[repeat_loop].
  apply IH; reflexivity.
Qed.

(** ** Termination of the spreadsheet host *)

Section ExcelQuit.

Import Excel.

Variable delay : Z.

Lemma busy_rounds_snoc (r : nat) (rest : list Act) :
  busy_rounds delay r ++ Paused delay :: AskedToQuit :: rest
  = Paused delay :: AskedToQuit :: busy_rounds delay r ++ rest.
Proof.
  induction r as [|r IH]; [reflexivity|].
  cbn [busy_rounds app]. now rewrite IH.
Qed.

Lemma quit_rounds_busy (r : nat) :
  forall (todo : nat) (h : Host) (rest : list Answer),
    0 <= delay ->
    answers h = repeat (ComError busy) r ++ rest ->
    quit_rounds (r + todo) delay h
    = quit_rounds todo delay
        (mkHost rest (login h) (busy_rounds delay r ++ acts h)).
Proof.
  induction r as [|r IH]; intros todo h rest Hdelay Hans.
  - cbn in *. now destruct h; cbn in *; subst.
  - cbn [Nat.add quit_rounds]. unfold Quit. cbn [note answers login acts].
    rewrite Hans. cbn [repeat app]. rewrite String.eqb_refl.
    destruct (Z.ltb_spec delay 0) as [|_]; [lia|].
    rewrite (IH todo _ rest Hdelay) by reflexivity.
    cbn [note answers login acts]. now rewrite busy_rounds_snoc.
Qed.

Lemma no_kill_in_busy_rounds (r : nat) (u : string) :
  ~ In (Taskkill u) (busy_rounds delay r).
Proof.
  induction r as [|r IH]; cbn; [tauto|].
  intros [H|[H|H]]; [discriminate|discriminate|contradiction].
Qed.

(** C7, as the code has it: facing [r] busy answers in a row with [r]
    retries, [quit] asks the application to quit [r] times, sleeps [delay]
    after each of the busy answers and returns; no forced kill is made.
    An answer that is a failure other than busy is followed at once by
    the forced kill, for the user logged in, and the rounds go on. *)
Theorem quit_retries_while_busy (r : nat) (h : Host) (rest : list Answer) :
  0 <= delay ->
  answers h = repeat (ComError busy) r ++ rest ->
  quit (Z.of_nat r) delay h
  = (None, mkHost rest (login h) (busy_rounds delay r ++ acts h))
  /\ (forall u, ~ In (Taskkill u) (busy_rounds delay r))
  /\ (forall todo strerror h0 rest0,
         answers h0 = ComError strerror :: rest0 ->
         strerror <> busy ->
         quit_rounds (S todo) delay h0
         = quit_rounds todo delay
             (mkHost rest0 (login h0)
                     (Taskkill (login h0) :: AskedToQuit :: acts h0))).
Proof.
  intros Hdelay Hans. split; [|split].
  - unfold quit. rewrite Nat2Z.id.
    replace r with (r + 0)%nat at 1 by lia.
    now rewrite (quit_rounds_busy r 0 h rest Hdelay Hans).
  - intros u. apply no_kill_in_busy_rounds.
  - intros todo strerror h0 rest0 Hans0 Hne.
    cbn [quit_rounds]. unfold Quit. cbn [note answers login acts].
    rewrite Hans0. apply String.eqb_neq in Hne. rewrite Hne. reflexivity.
Qed.

End ExcelQuit.

(** C7 as the specification has it fails: three busy answers with three
    retries and a delay of two seconds end without a forced kill. *)
Lemma quit_busy_thrice_without_kill :
  Excel.acts
    (snd (Excel.quit 3 (2 * second)
            (Excel.mkHost (repeat (Excel.ComError Excel.busy) 3) "operator" [])))
  = [Excel.Paused (2 * second); Excel.AskedToQuit;
     Excel.Paused (2 * second); Excel.AskedToQuit;
     Excel.Paused (2 * second); Excel.AskedToQuit]
  /\ ~ In (Excel.Taskkill "operator")
          (Excel.acts
             (snd (Excel.quit 3 (2 * second)
                     (Excel.mkHost (repeat (Excel.ComError Excel.busy) 3)
                                   "operator" [])))).
Proof.
  split; [reflexivity|].
  cbn. intros H. repeat (destruct H as [H|H]; [discriminate|]). exact H.
Qed.

Lemma quit_retries_while_busy_witness :
  Excel.quit 3 (2 * second)
             (Excel.mkHost (repeat (Excel.ComError Excel.busy) 3) "operator" [])
  = (None,
     Excel.mkHost [] "operator"
                  [Excel.Paused (2 * second); Excel.AskedToQuit;
                   Excel.Paused (2 * second); Excel.AskedToQuit;
                   Excel.Paused (2 * second); Excel.AskedToQuit]).
Proof.
  exact (proj1 (quit_retries_while_busy
                  (2 * second) 3
                  (Excel.mkHost (repeat (Excel.ComError Excel.busy) 3)
                                "operator" [])
                  [] ltac:(discriminate) eq_refl)).
Defined.

(** * Further properties *)

(** ** ElementResolver *)

(** X2: with a timeout that is not positive the resolver does not ask the
    driver at all: it answers [None], or raises [WebElementNotFoundError]
    when the instance escalates, and nothing else has happened. *)
Theorem resolve_without_time (locator : string) (max_wait_time : Z)
        (clickable : bool) (s : WebActions) :
  max_wait_time <= 0 ->
  _get_element_if_exist locator max_wait_time clickable s
  = (if raise_exception s then Raised WebElementNotFoundError
     else Returned None, s).
Proof.
  intros Hle.
  unfold _get_element_if_exist, bind, try_except, time_time. cbn.
  replace (max_wait_time - (clock s - clock s)) with max_wait_time by lia.
  rewrite Z.max_l by lia. cbn.
  unfold bind, get_raise_exception.
  destruct (raise_exception s); reflexivity.
Qed.

Lemma resolve_without_time_witness :
  _get_element_if_exist "status" 0 true (fresh [Present (showing "done")])
  = (Returned None, fresh [Present (showing "done")]).
Proof.
  exact (resolve_without_time "status" 0 true
                              (fresh [Present (showing "done")])
                              ltac:(discriminate)).
Defined.

(** X3: an exception leaves the resolver only as [WebElementNotFoundError],
    and then the instance escalates, or as one that [Exception] does not
    cover; with escalation off every failure of the driver ends in
    [None]. *)
Theorem resolve_escalation (locator : string) (max_wait_time : Z)
        (clickable : bool) (s s' : WebActions) (e : exn) :
  _get_element_if_exist locator max_wait_time clickable s = (Raised e, s') ->
  (e = WebElementNotFoundError /\ raise_exception s = true)
  \/ is_Exception e = false.
Proof.
  unfold _get_element_if_exist, bind, try_except, time_time, _time_left, ret,
    raise, get_raise_exception, until.
  cbn. destruct (Z.max 0 (max_wait_time - (clock s - clock s)) =? 0); cbn.
  - destruct (raise_exception s) eqn:Hflag; cbn; intros [= <- <-]; auto.
  - destruct (driver s) as [|[el| |e0] rest]; cbn;
      try (destruct (is_Exception e0) eqn:He0; cbn);
      try (destruct (raise_exception s) eqn:Hflag; cbn);
      intros [= <- <-]; auto.
Qed.

Lemma resolve_escalation_witness :
  (WebElementNotFoundError = WebElementNotFoundError
   /\ raise_exception (with_raise_exception true (fresh [Faulty WebDriverException]))
      = true)
  \/ is_Exception WebElementNotFoundError = false.
Proof.
  eapply resolve_escalation
    with (locator := "status"%string) (max_wait_time := 5 * second)
         (clickable := true)
         (s := with_raise_exception true (fresh [Faulty WebDriverException])).
  reflexivity.
Defined.

(** X4: the flag of the instance has no say in [check_element_exist]: the
    answer is the same whatever the flag holds, and only the argument of
    the call can make it raise [WebElementNotFoundError]. *)
Theorem check_element_exist_ignores_instance_flag
        (locator : string) (max_wait_time : Z) (raise_exception_ flag : bool)
        (s : WebActions) :
  check_element_exist locator max_wait_time raise_exception_
                      (with_raise_exception flag s)
  = (fst (check_element_exist locator max_wait_time raise_exception_ s),
     with_raise_exception
       flag (snd (check_element_exist locator max_wait_time raise_exception_ s))).
Proof.
  unfold check_element_exist, bind, get_raise_exception, set_raise_exception,
    try_finally.
  change (with_raise_exception false (with_raise_exception flag s))
    with (with_raise_exception false s).
  destruct (_get_element_if_exist locator max_wait_time false
              (with_raise_exception false s)) as [[[el|]|e|] s1];
    cbn; try reflexivity; destruct raise_exception_; reflexivity.
Qed.

Lemma click_keeps_deadline_witness :
  0 <= clock (snd (click "submit" (1 * second)
                         (fresh [Present covered_button;
                                 Present covered_button])))
       - clock (fresh [Present covered_button; Present covered_button])
    < 1 * second + second / 4.
Proof.
  eapply click_keeps_deadline
    with (locator := "submit"%string)
         (r := fst (click "submit" (1 * second)
                          (fresh [Present covered_button;
                                  Present covered_button]))).
  - discriminate.
  - apply surjective_pairing.
Defined.

(** ** ActionExecutor: [click] *)

Section ClickRetries.

Variables (locator : string) (max_wait_time : Z).

Lemma click_turn_intercepted (start : Z) (el : WebElement)
      (rest : list Response) (s : WebActions) :
  driver s = Present el :: rest ->
  intercepted el = true ->
  exists s1,
    click_turn locator max_wait_time start s = (Returned Again, s1)
    /\ clock s1 = clock s + second / 4
    /\ driver s1 = rest
    /\ raise_exception s1 = raise_exception s.
Proof.
  intros Hd Hint. unfold intercepted in Hint.
  unfold click_turn, bind, _time_left, time_time, ret, until, element_click,
    time_sleep.
  change (second / 4) with 250. cbn. rewrite Hd. cbn.
  destruct (click_fault el) as [[]|]; try discriminate;
    cbn; eexists; repeat split.
Qed.

Lemma click_turn_done (start : Z) (el : WebElement)
      (rest : list Response) (s : WebActions) :
  driver s = Present el :: rest ->
  click_fault el = None ->
  exists s1,
    click_turn locator max_wait_time start s = (Returned Done, s1)
    /\ clock s1 = clock s
    /\ driver s1 = rest
    /\ raise_exception s1 = raise_exception s.
Proof.
  intros Hd Hnone.
  unfold click_turn, bind, _time_left, time_time, ret, until, element_click.
  cbn. rewrite Hd. cbn. rewrite Hnone.
  eexists. repeat split.
Qed.

Lemma click_loop_retries (pre : list WebElement) :
  forall (fuel : nat) (start : Z) (el : WebElement) (rest : list Response)
         (s : WebActions),
    Forall (fun e => intercepted e = true) pre ->
    click_fault el = None ->
    clock s - start + Z.of_nat (length pre) * (second / 4) < max_wait_time ->
    driver s = map Present pre ++ Present el :: rest ->
    exists s',
      click_loop (length pre + S fuel) locator max_wait_time start s
      = (Returned true, s')
      /\ clock s' = clock s + Z.of_nat (length pre) * (second / 4)
      /\ driver s' = rest
      /\ raise_exception s' = raise_exception s.
Proof.
  induction pre as [|e pre IH]; intros fuel start el rest s Hpre Hel Hleft Hd.
  - cbn [length Nat.add click_loop]. unfold bind at 1. rewrite time_left_run.
    cbn [length] in Hleft. change (Z.of_nat 0) with 0 in *.
    destruct (Z.eqb_spec (Z.max 0 (max_wait_time - (clock s - start))) 0)
      as [E|_]; [lia|].
    destruct (click_turn_done start el rest s Hd Hel)
      as (s1 & Hturn & Hc & Hd1 & Hf).
    unfold bind. rewrite Hturn. exists s1. repeat split; [lia|exact Hd1|exact Hf].
  - inversion Hpre as [|? ? He Hpre']; subst.
    cbn [length Nat.add click_loop]. unfold bind at 1. rewrite time_left_run.
    cbn [length] in Hleft. rewrite Nat2Z.inj_succ in Hleft.
    change (second / 4) with 250 in *.
    destruct (Z.eqb_spec (Z.max 0 (max_wait_time - (clock s - start))) 0)
      as [E|_]; [lia|].
    destruct (click_turn_intercepted start e (map Present pre ++ Present el :: rest)
                                     s Hd He)
      as (s1 & Hturn & Hc & Hd1 & Hf).
    change (second / 4) with 250 in Hc.
    unfold bind. rewrite Hturn.
    destruct (IH fuel start el rest s1 Hpre' Hel) as (s' & Hrun & Hc' & Hd' & Hf');
      [lia|exact Hd1|].
    exists s'. split; [exact Hrun|]. rewrite Nat2Z.inj_succ.
    repeat split; [lia|exact Hd'|congruence].
Qed.

(** X6: while the clicks are intercepted or the handle is stale, [click]
    pauses a quarter of a second and tries again; when these pauses fit in
    the timeout and the next element takes the click, the call returns
    after the pauses alone, without raising. *)
Theorem click_after_interceptions (pre : list WebElement) (el : WebElement)
        (rest : list Response) (s : WebActions) :
  Forall (fun e => intercepted e = true) pre ->
  click_fault el = None ->
  Z.of_nat (length pre) * (second / 4) < max_wait_time ->
  driver s = map Present pre ++ Present el :: rest ->
  exists s',
    click locator max_wait_time s = (Returned tt, s')
    /\ clock s' = clock s + Z.of_nat (length pre) * (second / 4)
    /\ driver s' = rest.
Proof.
  intros Hpre Hel Hfit Hd.
  change (second / 4) with 250 in *.
  destruct (click_loop_retries pre (Z.to_nat max_wait_time - length pre)
                               (clock s) el rest s Hpre Hel)
    as (s' & Hrun & Hc & Hd' & _).
  { change (second / 4) with 250. lia. }
  { exact Hd. }
  exists s'. split; [|split; [exact Hc|exact Hd']].
  unfold click, bind at 1, time_time.
  replace (S (Z.to_nat max_wait_time))
    with (length pre + S (Z.to_nat max_wait_time - length pre))%nat by lia.
  unfold bind. rewrite Hrun. reflexivity.
Qed.

(** X7: when the element never gets clickable, [click] waits for the whole
    timeout, once, and then raises [WebElementNotFoundError] if the instance
    escalates and returns as if nothing had happened if it does not. *)
Theorem click_gives_up (s : WebActions) :
  0 < max_wait_time ->
  driver s = [] ->
  click locator max_wait_time s
  = (if raise_exception s then Raised WebElementNotFoundError
     else Returned tt,
     record (Waited (_get_find_method locator) locator max_wait_time true)
            (with_clock (clock s + max_wait_time) s)).
Proof.
  intros Hpos Hd.
  unfold click, bind at 1, time_time. cbn [click_loop].
  unfold bind at 1. unfold bind at 1. rewrite time_left_run.
  replace (max_wait_time - (clock s - clock s)) with max_wait_time by lia.
  rewrite Z.max_r by lia.
  destruct (Z.eqb_spec max_wait_time 0) as [E|_]; [lia|].
  unfold bind at 1, click_turn, bind at 1. rewrite time_left_run.
  replace (max_wait_time - (clock s - clock s)) with max_wait_time by lia.
  rewrite Z.max_r by lia.
  unfold bind, until. cbn [driver record]. rewrite Hd.
  unfold get_raise_exception. cbn.
  destruct (raise_exception s); reflexivity.
Qed.

End ClickRetries.

Lemma click_after_interceptions_witness :
  exists s',
    click "submit" (1 * second)
          (fresh [Present covered_button; Present covered_button;
                  Present button])
    = (Returned tt, s')
    /\ clock s' = 0 + 2 * (second / 4)
    /\ driver s' = [].
Proof.
  apply (click_after_interceptions
           "submit" (1 * second) [covered_button; covered_button] button []
           (fresh [Present covered_button; Present covered_button;
                   Present button])).
  - repeat constructor.
  - reflexivity.
  - reflexivity.
  - reflexivity.
Defined.

Lemma click_gives_up_witness :
  click "submit" (1 * second) (with_raise_exception true (fresh []))
  = (Raised WebElementNotFoundError,
     mkWebActions true None (1 * second) []
                  [Waited ID "submit" (1 * second) true]).
Proof.
  exact (click_gives_up "submit" (1 * second)
                        (with_raise_exception true (fresh []))
                        ltac:(reflexivity) eq_refl).
Defined.

(** ** The polling wait [wait_until_text_matches] *)

Section PollingWaitMore.

Variables (locator expected : string) (is_clickable : bool).

Lemma wait_until_first_match (pre : list WebElement) :
  forall (fuel : nat) (max_wait_time : Z) (el : WebElement)
         (rest : list Response) (s : WebActions),
    Forall (fun e => text e <> expected) pre ->
    text el = expected ->
    Z.of_nat (length pre) * second < max_wait_time ->
    driver s = map Present pre ++ Present el :: rest ->
    exists s',
      wait_until_text_matches_loop (length pre + S fuel) locator expected
                                   max_wait_time is_clickable s
      = (Returned true, s')
      /\ clock s' - clock s = Z.of_nat (length pre) * second
      /\ driver s' = rest.
Proof.
  induction pre as [|e pre IH];
    intros fuel max_wait_time el rest s Hpre Hel Hfit Hd;
    cbn [length Nat.add wait_until_text_matches_loop];
    cbn [length] in Hfit.
  - change (Z.of_nat 0) with 0 in *.
    destruct (Z.ltb_spec 0 max_wait_time) as [Hpos|]; [|lia].
    unfold bind at 1.
    rewrite (resolve_present locator max_wait_time Hpos is_clickable el rest s Hd).
    unfold bind at 1, set_element at 1. cbn [text_matches].
    rewrite Hel, String.eqb_refl. eexists. split; [reflexivity|].
    cbn. split; [lia|reflexivity].
  - inversion Hpre as [|? ? He Hpre']; subst.
    rewrite Nat2Z.inj_succ in Hfit.
    assert (Hpos : 0 < max_wait_time) by (unfold second in *; lia).
    destruct (Z.ltb_spec 0 max_wait_time) as [_|]; [|lia].
    unfold bind at 1.
    rewrite (resolve_present locator max_wait_time Hpos is_clickable e
                             (map Present pre ++ Present el :: rest) s Hd).
    unfold bind at 1, set_element at 1. cbn [text_matches].
    apply String.eqb_neq in He. rewrite He.
    unfold bind at 1, time_sleep at 1.
    change (1 * second <? 0) with false. cbv iota.
    match goal with
    | |- context [wait_until_text_matches_loop _ _ _ ?t _ ?st] =>
        destruct (IH fuel t el rest st Hpre' eq_refl)
          as (s' & Hrun & Hc' & Hd')
    end.
    + unfold second in *. lia.
    + reflexivity.
    + exists s'. split; [exact Hrun|]. split; [|exact Hd'].
      cbn [clock record with_clock with_element with_driver] in Hc'.
      rewrite Nat2Z.inj_succ. lia.
Qed.

(** X8: on an element that is there and shows another text all along,
    [wait_until_text_matches] looks once a second and answers [False] when
    [max_wait_time], a whole number [k] of seconds, has gone by: [k] looks,
    [k] seconds. *)
Theorem wait_until_text_matches_countdown (k : nat) (els : list WebElement)
        (rest : list Response) (s : WebActions) :
  length els = k ->
  Forall (fun el => text el <> expected) els ->
  driver s = map Present els ++ rest ->
  exists s',
    wait_until_text_matches locator expected (Z.of_nat k * second)
                            is_clickable s
    = (Returned false, s')
    /\ clock s' - clock s = Z.of_nat k * second
    /\ driver s' = rest.
Proof.
  intros Hlen Hels Hd. unfold wait_until_text_matches.
  apply wait_for_other_text with (els := els); try assumption.
  unfold second. lia.
Qed.

(** X9: [wait_until_text_matches] answers [True] at the first look that
    finds the text, one second after each look that did not, provided that
    look falls within [max_wait_time]. *)
Theorem wait_until_text_matches_first_match (max_wait_time : Z)
        (pre : list WebElement) (el : WebElement) (rest : list Response)
        (s : WebActions) :
  Forall (fun e => text e <> expected) pre ->
  text el = expected ->
  Z.of_nat (length pre) * second < max_wait_time ->
  driver s = map Present pre ++ Present el :: rest ->
  exists s',
    wait_until_text_matches locator expected max_wait_time is_clickable s
    = (Returned true, s')
    /\ clock s' - clock s = Z.of_nat (length pre) * second
    /\ driver s' = rest.
Proof.
  intros Hpre Hel Hfit Hd. unfold wait_until_text_matches.
  replace (S (Z.to_nat max_wait_time))
    with (length pre + S (Z.to_nat max_wait_time - length pre))%nat
    by (unfold second in *; lia).
  apply wait_until_first_match with (el := el); assumption.
Qed.

(** X10: on an element that never shows up, with escalation off, each look
    of [wait_until_text_matches] waits for all that is left of the
    countdown before the second of sleep: for [max_wait_time] a whole
    number [k] of seconds the answer [False] comes after
    [k + k * (k + 1) / 2] seconds. *)
Theorem wait_until_text_matches_absent_cost (k : nat) (s : WebActions) :
  raise_exception s = false ->
  driver s = [] ->
  exists s',
    wait_until_text_matches locator expected (Z.of_nat k * second)
                            is_clickable s
    = (Returned false, s')
    /\ 2 * (clock s' - clock s)
       = (Z.of_nat k * Z.of_nat k + 3 * Z.of_nat k) * second.
Proof.
  intros Hflag Hd. unfold wait_until_text_matches.
  destruct (wait_for_absent_element locator expected is_clickable k
              (S (Z.to_nat (Z.of_nat k * second))) s)
    as (s' & Hrun & Hc & _); try assumption.
  - unfold second. lia.
  - exists s'. split; assumption.
Qed.

End PollingWaitMore.

Lemma wait_until_text_matches_countdown_witness :
  exists s',
    wait_until_text_matches "status" "done" (Z.of_nat 2 * second) false
                            (fresh [Present (showing "busy");
                                    Present (showing "busy")])
    = (Returned false, s')
    /\ clock s' - 0 = Z.of_nat 2 * second
    /\ driver s' = [].
Proof.
  apply (wait_until_text_matches_countdown
           "status" "done" false 2 [showing "busy"; showing "busy"] []
           (fresh [Present (showing "busy"); Present (showing "busy")])).
  - reflexivity.
  - repeat constructor; discriminate.
  - reflexivity.
Defined.

Lemma wait_until_text_matches_first_match_witness :
  exists s',
    wait_until_text_matches "status" "done" (5 * second) false
                            (fresh [Present (showing "busy");
                                    Present (showing "done")])
    = (Returned true, s')
    /\ clock s' - 0 = Z.of_nat 1 * second
    /\ driver s' = [].
Proof.
  apply (wait_until_text_matches_first_match
           "status" "done" false (5 * second) [showing "busy"]
           (showing "done") []
           (fresh [Present (showing "busy"); Present (showing "done")])).
  - repeat constructor; discriminate.
  - reflexivity.
  - reflexivity.
  - reflexivity.
Defined.

Lemma wait_until_text_matches_absent_cost_witness :
  exists s',
    wait_until_text_matches "status" "done" (Z.of_nat 3 * second) false
                            (fresh [])
    = (Returned false, s')
    /\ 2 * (clock s' - 0) = (Z.of_nat 3 * Z.of_nat 3 + 3 * Z.of_nat 3) * second.
Proof.
  apply (wait_until_text_matches_absent_cost
           "status" "done" false 3 (fresh []) eq_refl eq_refl).
Defined.

(** ** ValidationLoop *)

(** With a number of attempts that is not positive [validate_text]
    does not look at the page: it answers at once, with no data and a false
    status. *)
Theorem validate_text_without_attempts (locator expected : string)
        (stop_texts : option (list string))
        (max_wait_time no_of_attempts validation_wait_time : Z)
        (s : WebActions) :
  no_of_attempts <= 0 ->
  validate_text locator expected stop_texts max_wait_time no_of_attempts
                validation_wait_time s
  = (Returned (mkData None false), s).
Proof.
  intros Hle. unfold validate_text. cbn [validate_text_loop].
  destruct (Z.ltb_spec 0 no_of_attempts) as [|_]; [lia|reflexivity].
Qed.

Lemma validate_text_without_attempts_witness :
  validate_text "status" "done" None (300 * second) 0 (2 * second)
                (fresh [Present (showing "done")])
  = (Returned (mkData None false), fresh [Present (showing "done")]).
Proof.
  exact (validate_text_without_attempts
           "status" "done" None (300 * second) 0 (2 * second)
           (fresh [Present (showing "done")]) ltac:(discriminate)).
Defined.

Section ValidationMore.

Variables (locator expected : string) (stop_texts : option (list string)).
Variables (max_wait_time no_of_attempts validation_wait_time : Z).

Hypothesis wait_positive : 0 < max_wait_time.
Hypothesis pause_not_negative : 0 <= validation_wait_time.

(** One round on an element that is there and shows an idle text: the
    pause is all the time it takes. *)
Lemma idle_round_cost (fuel : nat) (before : option string) (attempts : Z)
      (el : WebElement) (rest : list Response) (s : WebActions) :
  attempts < no_of_attempts ->
  idle expected stop_texts el = true ->
  driver s = Present el :: rest ->
  exists s1,
    driver s1 = rest
    /\ clock s1 = clock s + validation_wait_time
    /\ validate_text_loop (S fuel) locator expected stop_texts max_wait_time
                          no_of_attempts validation_wait_time before attempts s
       = validate_text_loop fuel locator expected stop_texts max_wait_time
                            no_of_attempts validation_wait_time
                            (Some (text el)) (attempts + 1) s1.
Proof.
  intros Hlt Hidle Hd.
  unfold idle in Hidle. apply andb_true_iff in Hidle as [Hs He].
  apply negb_true_iff in Hs, He.
  eexists. split; [|split]; cycle 2.
  - cbn [validate_text_loop].
    destruct (Z.ltb_spec attempts no_of_attempts) as [_|]; [|lia].
    unfold bind at 1.
    rewrite (resolve_present locator max_wait_time wait_positive true el rest s Hd).
    unfold bind at 1, set_element at 1. cbn [element_text].
    unfold bind at 1, ret at 1. rewrite Hs, He.
    unfold bind at 1, time_sleep at 1.
    destruct (Z.ltb_spec validation_wait_time 0) as [|_]; [lia|].
    reflexivity.
  - reflexivity.
  - reflexivity.
Qed.

Lemma idle_rounds_cost (pre : list WebElement) :
  forall (fuel : nat) (before : option string) (attempts : Z)
         (rest : list Response) (s : WebActions),
    Forall (fun el => idle expected stop_texts el = true) pre ->
    attempts + Z.of_nat (length pre) <= no_of_attempts ->
    driver s = map Present pre ++ rest ->
    exists s',
      driver s' = rest
      /\ clock s' = clock s + Z.of_nat (length pre) * validation_wait_time
      /\ validate_text_loop (length pre + fuel) locator expected stop_texts
                            max_wait_time no_of_attempts validation_wait_time
                            before attempts s
         = validate_text_loop fuel locator expected stop_texts max_wait_time
                              no_of_attempts validation_wait_time
                              (last_seen pre before)
                              (attempts + Z.of_nat (length pre)) s'.
Proof.
  induction pre as [|el pre IH]; intros fuel before attempts rest s Hidle Hle Hd.
  - exists s. cbn [length Nat.add last_seen fold_left].
    change (Z.of_nat 0) with 0.
    split; [exact Hd|]. split; [lia|]. now rewrite Z.add_0_r.
  - inversion Hidle as [|? ? Hel Hpre]; subst.
    cbn [length] in Hle. rewrite Nat2Z.inj_succ in Hle.
    destruct (idle_round_cost (length pre + fuel) before attempts el
                              (map Present pre ++ rest) s)
      as (s1 & Hd1 & Hc1 & Hrun); [lia|exact Hel|exact Hd|].
    destruct (IH fuel (Some (text el)) (attempts + 1) rest s1)
      as (s' & Hd' & Hc' & Hrun'); [assumption|lia|exact Hd1|].
    exists s'. split; [exact Hd'|split].
    + cbn [length]. rewrite Nat2Z.inj_succ. lia.
    + cbn [length Nat.add]. rewrite Hrun, Hrun'. cbn [last_seen fold_left].
      f_equal. rewrite Nat2Z.inj_succ. lia.
Qed.

(** X11: a validation that uses up its attempts on texts that neither stop
    nor settle it pauses after every attempt, the last one too: [n]
    attempts cost [n] times [validation_wait_time], and the answer then
    holds the text seen last and a false status. *)
Theorem validate_text_exhaustion_cost (els : list WebElement)
        (rest : list Response) (s : WebActions) :
  Z.of_nat (length els) = no_of_attempts ->
  Forall (fun el => ~ In (text el) (get_or stop_texts [])
                    /\ text el <> expected) els ->
  driver s = map Present els ++ rest ->
  exists s',
    validate_text locator expected stop_texts max_wait_time no_of_attempts
                  validation_wait_time s
    = (Returned (mkData (last_seen els None) false), s')
    /\ clock s' = clock s + no_of_attempts * validation_wait_time
    /\ driver s' = rest.
Proof.
  intros Hlen Hels Hd.
  assert (Hidle : Forall (fun el => idle expected stop_texts el = true) els).
  { eapply Forall_impl; [|exact Hels]. intros el Hel. now apply idle_spec. }
  destruct (idle_rounds_cost els 1 None 0 rest s Hidle)
    as (s' & Hd' & Hc' & Hrun); [lia|exact Hd|].
  exists s'. split; [|split; [rewrite Hc', Hlen; reflexivity|exact Hd']].
  unfold validate_text.
  replace (S (Z.to_nat no_of_attempts)) with (length els + 1)%nat by lia.
  rewrite Hrun. cbn [validate_text_loop].
  destruct (Z.ltb_spec (0 + Z.of_nat (length els)) no_of_attempts); [lia|].
  reflexivity.
Qed.

(** X12: on an instance that escalates, an attempt that is made and finds
    nothing ends [validate_text] in [WebElementNotFoundError], raised by
    the resolver, and not in the [AttributeError] of the handle. *)
Theorem validate_text_escalates (pre : list WebElement)
        (rest : list Response) (s : WebActions) :
  raise_exception s = true ->
  Forall (fun el => ~ In (text el) (get_or stop_texts [])
                    /\ text el <> expected) pre ->
  Z.of_nat (length pre) < no_of_attempts ->
  driver s = map Present pre ++ Absent :: rest ->
  exists s',
    validate_text locator expected stop_texts max_wait_time no_of_attempts
                  validation_wait_time s
    = (Raised WebElementNotFoundError, s')
    /\ driver s' = rest.
Proof.
  intros Hflag Hpre Hlt Hd.
  assert (Hidle : Forall (fun el => idle expected stop_texts el = true) pre).
  { eapply Forall_impl; [|exact Hpre]. intros el Hel. now apply idle_spec. }
  destruct (skip_idle locator expected stop_texts max_wait_time no_of_attempts
                      validation_wait_time wait_positive pause_not_negative
                      pre (S (Z.to_nat no_of_attempts - length pre)) None 0
                      (Absent :: rest) s Hidle)
    as (s0 & Hd0 & Hf0 & Hrun); [lia|exact Hd|].
  unfold validate_text.
  replace (S (Z.to_nat no_of_attempts))
    with (length pre + S (Z.to_nat no_of_attempts - length pre))%nat by lia.
  rewrite Hrun. cbn [validate_text_loop].
  destruct (Z.ltb_spec (0 + Z.of_nat (length pre)) no_of_attempts) as [_|];
    [|lia].
  unfold bind at 1.
  unfold _get_element_if_exist, bind, try_except, time_time, _time_left, ret,
    until, get_raise_exception.
  cbn. replace (max_wait_time - (clock s0 - clock s0)) with max_wait_time by lia.
  rewrite Z.max_r by lia.
  destruct (Z.eqb_spec max_wait_time 0) as [E|_]; [lia|].
  rewrite Hd0. cbn. rewrite Hf0, Hflag. cbn.
  eexists. split; reflexivity.
Qed.

End ValidationMore.

Lemma validate_text_exhaustion_cost_witness :
  exists s',
    validate_text "status" "done" (Some ["error"%string]) (300 * second) 2
                  (2 * second)
                  (fresh [Present (showing "busy"); Present (showing "wait")])
    = (Returned (mkData (Some "wait"%string) false), s')
    /\ clock s' = 0 + 2 * (2 * second)
    /\ driver s' = [].
Proof.
  apply (validate_text_exhaustion_cost
           "status" "done" (Some ["error"%string]) (300 * second) 2
           (2 * second) ltac:(reflexivity) ltac:(discriminate)
           [showing "busy"; showing "wait"] []
           (fresh [Present (showing "busy"); Present (showing "wait")])).
  - reflexivity.
  - repeat constructor; try discriminate;
      cbn; intros [H|[]]; discriminate H.
  - reflexivity.
Defined.

Lemma validate_text_escalates_witness :
  exists s',
    validate_text "status" "done" (Some ["error"%string]) (300 * second) 3
                  (2 * second)
                  (with_raise_exception
                     true (fresh [Present (showing "busy"); Absent]))
    = (Raised WebElementNotFoundError, s')
    /\ driver s' = [].
Proof.
  apply (validate_text_escalates
           "status" "done" (Some ["error"%string]) (300 * second) 3
           (2 * second) ltac:(reflexivity) ltac:(discriminate)
           [showing "busy"] []
           (with_raise_exception
              true (fresh [Present (showing "busy"); Absent]))).
  - reflexivity.
  - repeat constructor; try discriminate;
      cbn; intros [H|[]]; discriminate H.
  - reflexivity.
  - reflexivity.
Defined.

(** ** SelectionDispatcher *)

Lemma py_eq_refl (a : PyVal) : py_eq a a = true.
Proof.
  destruct a as [z|t|b]; cbn;
    [apply Z.eqb_refl|apply String.eqb_refl|now destruct b].
Qed.

Lemma py_eq_str (a : PyVal) (v : string) : py_eq a (PStr v) = true -> a = PStr v.
Proof.
  destruct a as [z|t|b]; cbn; try discriminate.
  intros H. apply String.eqb_eq in H. now subst.
Qed.

(** A value that is itself among the local variables is always found. *)
Lemma pick_method_given (action : string)
      (locals : list (string * option PyVal)) (p : string * PyVal)
      (name : string) (a : PyVal) (s : WebActions) :
  In (name, Some a) locals ->
  exists p', pick_method action locals p (Some a) s = (Returned p', s).
Proof.
  intros Hin. unfold pick_method, first_local, bind.
  match goal with
  | |- context [filter ?f locals] => destruct (filter f locals) as [|ia l] eqn:E;
      [assert (Hf : In (name, Some a) (filter f locals))|]
  end.
  - apply filter_In. split; [exact Hin|apply py_eq_refl].
  - rewrite E in Hf. contradiction.
  - eexists. reflexivity.
Qed.

(** Each of the three arguments is itself a local variable, so the round
    that looks for it by value finds a name and goes on. *)
Lemma bind_pick_method {B : Type} (action : string)
      (locals : list (string * option PyVal)) (p : string * PyVal)
      (o : option PyVal) (name : string) (k : string * PyVal -> M B)
      (s : WebActions) :
  In (name, o) locals ->
  exists p', bind (pick_method action locals p o) k s = k p' s.
Proof.
  intros Hin. destruct o as [a|].
  - destruct (pick_method_given action locals p name a s Hin) as (p' & Hp).
    exists p'. unfold bind at 1. now rewrite Hp.
  - now exists p.
Qed.

Section SelectionMore.

Variables (locator : string) (max_wait_time : Z) (is_clickable : bool).

Hypothesis wait_positive : 0 < max_wait_time.

(** X14: when [value] is given, the selection is made by value whatever
    [index] and [visible_text] hold, the last of the three arguments that is
    not [None] being the one that counts, as long as the value differs from
    the other two, from the locator and from the name of the action. *)
Theorem select_by_value_prevails (index visible_text : option PyVal)
        (v : string) (el : WebElement) (rest : list Response) (s : WebActions) :
  v <> EmptyString ->
  v <> locator ->
  v <> "select_element"%string ->
  index <> Some (PStr v) ->
  visible_text <> Some (PStr v) ->
  driver s = Present el :: rest ->
  tag_name el = "select"%string ->
  accepts el "select_by_value" (PStr v) = true ->
  exists s',
    select_element locator max_wait_time is_clickable index visible_text
                   (Some (PStr v)) s
    = (Returned tt, s')
    /\ journal s'
       = Invoked "select_by_value" (PStr v)
           :: Waited (_get_find_method locator) locator max_wait_time
                     is_clickable
           :: journal s.
Proof.
  intros Hv Hloc Hact Hidx Hvt Hd Htag Hacc.
  unfold select_element, none_given. cbn [existsb truthy].
  apply String.eqb_neq in Hv. rewrite Hv. cbn [negb].
  rewrite !orb_true_r. cbn [negb].
  unfold _perform_selection_action. unfold bind at 1.
  rewrite (resolve_present locator max_wait_time wait_positive is_clickable
                           el rest s Hd).
  unfold bind at 1, set_element at 1. rewrite Htag.
  change (negb (String.eqb "select" "select")) with false. cbv iota.
  cbv zeta.
  match goal with
  | |- context [bind (pick_method ?a ?l ?p index) ?k ?st] =>
      destruct (bind_pick_method a l p index "index" k st) as (p0 & ->);
        [cbn; tauto|]
  end.
  cbv beta.
  match goal with
  | |- context [bind (pick_method ?a ?l ?p visible_text) ?k ?st] =>
      destruct (bind_pick_method a l p visible_text "visible_text" k st)
        as (p1 & ->); [cbn; tauto|]
  end.
  cbv beta.
  assert (Hother : forall o, o <> Some (PStr v) ->
                             match o with
                             | Some a => py_eq a (PStr v)
                             | None => false
                             end = false).
  { intros [a|] Ho; [|reflexivity].
    destruct (py_eq a (PStr v)) eqn:E; [|reflexivity].
    apply py_eq_str in E. congruence. }
  unfold bind at 1, pick_method, first_local, bind at 1.
  cbn [filter snd fst].
  rewrite (Hother index Hidx), (Hother visible_text Hvt).
  assert (Hsec : match as_seconds max_wait_time with
                 | Some a => py_eq a (PStr v)
                 | None => false
                 end = false).
  { unfold as_seconds. now destruct (max_wait_time mod second =? 0). }
  rewrite Hsec. cbn [py_eq].
  apply not_eq_sym in Hloc. apply String.eqb_neq in Hloc. rewrite Hloc.
  apply not_eq_sym in Hact. apply String.eqb_neq in Hact. rewrite Hact.
  rewrite String.eqb_refl.
  unfold ret at 1. cbn [fst].
  change (removesuffix "_element" "select_element" ++ "_by_" ++ "value")%string
    with "select_by_value"%string.
  unfold ret, try_except, invoke. cbn [fst snd].
  change (existsb (String.eqb "select_by_value") select_api) with true.
  cbv iota. rewrite Hacc. eexists. split; reflexivity.
Qed.

(** X15: the name of the primitive is looked up by value among the local
    variables of the dispatcher, the locator first: a visible text that
    equals the locator asks for [select_by_element], which [Select] does
    not have, and the call ends in [SelectionNotFoundError] with nothing
    selected. *)
Theorem select_text_equal_to_locator (el : WebElement) (rest : list Response)
        (s : WebActions) :
  locator <> EmptyString ->
  driver s = Present el :: rest ->
  tag_name el = "select"%string ->
  exists s',
    select_element locator max_wait_time is_clickable None
                   (Some (PStr locator)) None s
    = (Raised SelectionNotFoundError, s')
    /\ journal s'
       = Waited (_get_find_method locator) locator max_wait_time is_clickable
           :: journal s.
Proof.
  intros Hne Hd Htag.
  unfold select_element, none_given. cbn [existsb truthy].
  apply String.eqb_neq in Hne. rewrite Hne. cbn [negb orb].
  unfold _perform_selection_action. unfold bind at 1.
  rewrite (resolve_present locator max_wait_time wait_positive is_clickable
                           el rest s Hd).
  unfold bind at 1, set_element at 1. rewrite Htag.
  change (negb (String.eqb "select" "select")) with false. cbv iota.
  unfold bind at 1, pick_method at 1, ret at 1.
  unfold bind at 1, pick_method at 1, first_local, bind at 1.
  cbn [filter snd fst py_eq]. rewrite String.eqb_refl.
  unfold ret at 1. unfold bind at 1, pick_method at 1, ret at 1.
  cbn [fst snd].
  change (removesuffix "_element" "select_element" ++ "_by_" ++ "element")%string
    with "select_by_element"%string.
  unfold try_except, invoke.
  change (existsb (String.eqb "select_by_element") select_api) with false.
  cbv iota. unfold raise. cbn [is_Exception].
  eexists. split; reflexivity.
Qed.

(** X16: when the element is not found and the instance does not escalate,
    [select_element] selects nothing and says nothing: it returns as after
    a selection. *)
Theorem select_on_missing_element (index visible_text value : option PyVal)
        (s : WebActions) :
  none_given index visible_text value = false ->
  raise_exception s = false ->
  driver s = [] ->
  select_element locator max_wait_time is_clickable index visible_text value s
  = (Returned tt,
     with_element None
       (record (Waited (_get_find_method locator) locator max_wait_time
                       is_clickable)
               (with_clock (clock s + max_wait_time) s))).
Proof.
  intros Hgiven Hflag Hd.
  unfold select_element. rewrite Hgiven.
  unfold _perform_selection_action, _get_element_if_exist, bind, try_except,
    time_time, _time_left, ret, until, get_raise_exception, set_element.
  cbn. replace (max_wait_time - (clock s - clock s)) with max_wait_time by lia.
  rewrite Z.max_r by lia.
  destruct (Z.eqb_spec max_wait_time 0) as [E|_]; [lia|].
  rewrite Hd. cbn. rewrite Hflag. reflexivity.
Qed.

End SelectionMore.

Lemma select_by_value_prevails_witness :
  exists s',
    select_element "country" (300 * second) true (Some (PInt 2))
                   (Some (PStr "France")) (Some (PStr "fr"))
                   (fresh [Present dropdown])
    = (Returned tt, s')
    /\ journal s'
       = [Invoked "select_by_value" (PStr "fr");
          Waited ID "country" (300 * second) true].
Proof.
  apply (select_by_value_prevails
           "country" (300 * second) true ltac:(reflexivity)
           (Some (PInt 2)) (Some (PStr "France")) "fr" dropdown []
           (fresh [Present dropdown]));
    try discriminate; reflexivity.
Defined.

Lemma select_text_equal_to_locator_witness :
  exists s',
    select_element "country" (300 * second) true None
                   (Some (PStr "country")) None (fresh [Present dropdown])
    = (Raised SelectionNotFoundError, s')
    /\ journal s' = [Waited ID "country" (300 * second) true].
Proof.
  apply (select_text_equal_to_locator
           "country" (300 * second) true ltac:(reflexivity) dropdown []
           (fresh [Present dropdown]));
    try discriminate; reflexivity.
Defined.

Lemma select_on_missing_element_witness :
  select_element "country" (2 * second) true (Some (PInt 1)) None None
                 (fresh [])
  = (Returned tt,
     mkWebActions false None (2 * second) []
                  [Waited ID "country" (2 * second) true]).
Proof.
  exact (select_on_missing_element
           "country" (2 * second) true ltac:(reflexivity)
           (Some (PInt 1)) None None (fresh []) eq_refl eq_refl eq_refl).
Defined.

(** ** StepOrchestrator *)

Section OrchestratorMore.

Variables (page : PageAction) (step_wait_time : Z).

Lemma run_pass_app (pre post : list Step.t) :
  forall (l : Loop.t) (s : WebActions),
    run_pass page step_wait_time (pre ++ post) l s
    = bind (run_pass page step_wait_time pre l)
           (run_pass page step_wait_time post) s.
Proof.
  induction pre as [|step pre IH]; intros l s; [reflexivity|].
  cbn [app run_pass]. unfold bind.
  destruct (run_step page step_wait_time step l s) as [[l1|e|] s1];
    [|reflexivity|reflexivity].
  rewrite IH. reflexivity.
Qed.

(** No action takes the success flag down. *)
Lemma dispatch_keeps_success (step : Step.t) (l l' : Loop.t) (s s' : WebActions) :
  dispatch page step l s = (Returned l', s') ->
  Loop.break_flag l = true ->
  Loop.break_flag l' = true.
Proof.
  unfold dispatch. intros H Hflag.
  repeat match type of H with
         | context [if String.eqb ?a ?b then _ else _] =>
             destruct (String.eqb a b)
         end;
    try (apply bind_returned in H as (a & s1 & _ & H));
    unfold ret in H; injection H as <- <-; try assumption.
  cbn. rewrite Hflag. now destruct (status a).
Qed.

Lemma run_pass_keeps_success (steps : list Step.t) :
  forall (l l' : Loop.t) (s s' : WebActions),
    run_pass page step_wait_time steps l s = (Returned l', s') ->
    Loop.break_flag l = true ->
    Loop.break_flag l' = true.
Proof.
  induction steps as [|step steps IH]; intros l l' s s' H Hflag.
  - cbn in H. unfold ret in H. now injection H as <- <-.
  - cbn [run_pass] in H.
    apply bind_returned in H as (l1 & s1 & Hstep & H).
    apply (IH _ _ _ _ H). unfold run_step in Hstep.
    apply bind_returned in Hstep as (l2 & s2 & Hd & Hstep).
    apply bind_returned in Hstep as ([] & s3 & _ & Hstep).
    unfold ret in Hstep. injection Hstep as <- <-.
    now apply dispatch_keeps_success in Hd.
Qed.

Lemma run_pass_wait_kept (steps : list Step.t) :
  Forall (fun st => Step.max_wait_time st = None) steps ->
  forall (l l' : Loop.t) (s s' : WebActions),
    run_pass page step_wait_time steps l s = (Returned l', s') ->
    Loop.max_wait_time l' = Loop.max_wait_time l.
Proof.
  induction 1 as [|step steps Hstep _ IH]; intros l l' s s' H.
  - cbn in H. unfold ret in H. now injection H as <- <-.
  - cbn [run_pass] in H.
    apply bind_returned in H as (l1 & s1 & H1 & H).
    apply IH in H. apply run_step_frame in H1 as [H1 _].
    now rewrite H, H1, Hstep.
Qed.

(** With no attempt allowed no step is run: the call answers at once
    as for a failed run, by [raise_exception] and [return_data], and the
    page and the clock are as before. *)
Theorem repeat_steps_without_attempts
        (fuel : nat) (steps : list Step.t)
        (max_wait_time no_of_attempts : Z)
        (raise_exception_ return_data : bool) (s : WebActions) :
  no_of_attempts <= 0 ->
  repeat_steps_until_success (S fuel) page steps max_wait_time no_of_attempts
                             step_wait_time raise_exception_ return_data s
  = (if raise_exception_ then Raised StepsNotCompleted
     else Returned (if return_data then WithData (mkData None false)
                    else Flag false),
     s).
Proof.
  intros Hn. unfold repeat_steps_until_success. cbn [repeat_loop].
  cbn [Loop.no_of_attempts].
  destruct (Z.ltb_spec 0 no_of_attempts) as [|_]; [lia|].
  unfold bind, ret, raise. cbn.
  destruct raise_exception_, return_data; reflexivity.
Qed.

(** X17: an empty list of steps, with an attempt allowed, ends in
    [IndexError] on [steps[-1]], also when the caller asked for no
    exception. *)
Theorem repeat_steps_on_no_steps
        (fuel : nat) (max_wait_time no_of_attempts : Z)
        (raise_exception_ return_data : bool) (s : WebActions) :
  0 < no_of_attempts ->
  repeat_steps_until_success (S fuel) page [] max_wait_time no_of_attempts
                             step_wait_time raise_exception_ return_data s
  = (Raised IndexError, s).
Proof.
  intros Hn. unfold repeat_steps_until_success. cbn [repeat_loop].
  cbn [Loop.no_of_attempts].
  destruct (Z.ltb_spec 0 no_of_attempts) as [_|]; [|lia].
  reflexivity.
Qed.

(** X18: a [validate_text] step that matches does not end the pass.  The
    steps after it are still run; the success flag stays up through them,
    the loop ends when the pass is over and the data handed back is what
    the last [validate_text] step of the pass read, matching or not. *)
Theorem success_is_latched
        (fuel : nat) (pre post : list Step.t) (l l0 l1 : Loop.t)
        (s s0 s1 : WebActions) :
  0 < Loop.no_of_attempts l ->
  run_pass page step_wait_time pre l s = (Returned l0, s0) ->
  Loop.break_flag l0 = true ->
  run_pass page step_wait_time post l0 s0 = (Returned l1, s1) ->
  repeat_loop (S fuel) page step_wait_time (pre ++ post) l s
  = (Returned (Loop.mk (Loop.max_wait_time l1) (Loop.no_of_attempts l1 - 1)
                       (Loop.data l1) true), s1).
Proof.
  intros Hpos Hpre Hflag Hpost.
  assert (Hpass : run_pass page step_wait_time (pre ++ post) l s
                  = (Returned l1, s1)).
  { rewrite run_pass_app. unfold bind. now rewrite Hpre. }
  rewrite (repeat_loop_turn page step_wait_time fuel _ l l1 s s1 Hpos Hpass).
  now rewrite (run_pass_keeps_success post l0 l1 s0 s1 Hpost Hflag).
Qed.

(** X19: a step that carries [max_wait_time] overwrites the one wait time
    of the run: the later steps of the pass that bring none wait by it, and
    so does the next pass from its first step on, whatever the caller
    passed. *)
Theorem wait_override_is_shared (step : Step.t) (w : Z)
        (fuel : nat) (pre post : list Step.t) (l l0 l1 l' : Loop.t)
        (s s0 s1 s' : WebActions) :
  Step.max_wait_time step = Some w ->
  Forall (fun st => Step.max_wait_time st = None) post ->
  0 < Loop.no_of_attempts l ->
  run_pass page step_wait_time pre l s = (Returned l0, s0) ->
  run_step page step_wait_time step l0 s0 = (Returned l1, s1) ->
  run_pass page step_wait_time post l1 s1 = (Returned l', s') ->
  Loop.break_flag l' = false ->
  stop_check (Loop.data l') (pre ++ step :: post) s' = (Returned false, s') ->
  Loop.max_wait_time l1 = w
  /\ Loop.max_wait_time l' = w
  /\ repeat_loop (S fuel) page step_wait_time (pre ++ step :: post) l s
     = repeat_loop fuel page step_wait_time (pre ++ step :: post)
         (Loop.mk w (Loop.no_of_attempts l' - 1) (Loop.data l') false) s'.
Proof.
  intros Hw Hnone Hpos Hpre Hstep Hpost Hflag Hcheck.
  assert (H1 : Loop.max_wait_time l1 = w).
  { apply run_step_frame in Hstep as [Hstep _]. now rewrite Hstep, Hw. }
  assert (H' : Loop.max_wait_time l' = w).
  { now rewrite (run_pass_wait_kept post Hnone l1 l' s1 s' Hpost). }
  split; [exact H1|]. split; [exact H'|].
  assert (Hpass : run_pass page step_wait_time (pre ++ step :: post) l s
                  = (Returned l', s')).
  { rewrite run_pass_app. unfold bind at 1. rewrite Hpre.
    cbn [run_pass]. unfold bind at 1. now rewrite Hstep. }
  rewrite (repeat_loop_turn page step_wait_time fuel _ l l' s s' Hpos Hpass).
  rewrite Hflag. unfold bind. now rewrite Hcheck, H'.
Qed.

Section Override.

Variables (pre post : list Step.t) (step : Step.t) (k : Z).

Hypothesis step_overrides : Step.no_of_attempts step = Some k.
Hypothesis override_allows_more : 2 <= k.
Hypothesis post_brings_none :
  Forall (fun st => Step.no_of_attempts st = None) post.

Lemma repeat_loop_override (fuel : nat) :
  forall (l l' : Loop.t) (s s' : WebActions),
    0 < Loop.no_of_attempts l ->
    repeat_loop fuel page step_wait_time (pre ++ step :: post) l s
    = (Returned l', s') ->
    Loop.break_flag l' = true.
Proof.
  induction fuel as [|fuel IH]; intros l l' s s' Hpos H; [discriminate|].
  cbn [repeat_loop] in H.
  destruct (Z.ltb_spec 0 (Loop.no_of_attempts l)) as [_|]; [|lia].
  apply bind_returned in H as (l1 & s1 & Hpass & H).
  apply run_pass_counter in Hpass.
  rewrite (attempts_after_override pre post step k _ step_overrides
                                   post_brings_none) in Hpass.
  cbn [Loop.break_flag Loop.data Loop.max_wait_time Loop.no_of_attempts] in H.
  destruct (Loop.break_flag l1) eqn:Hflag.
  - unfold ret in H. now injection H as <- <-.
  - apply bind_returned in H as (hit & s2 & _ & H). destruct hit.
    + unfold ret in H. now injection H as <- <-.
    + apply IH in H; [exact H|]. cbn [Loop.no_of_attempts]. lia.
Qed.

(** X20: when the last step that carries [no_of_attempts] sets it to two
    or more, the attempts never run out: however many passes are followed,
    a call that returns reports success.  It never returns [False] or a
    [Data] with a false status, and the failure of the run is never
    raised. *)
Theorem override_never_reports_failure
        (fuel : nat) (max_wait_time no_of_attempts : Z)
        (raise_exception_ return_data : bool) (s s' : WebActions)
        (r : result Verdict) :
  0 < no_of_attempts ->
  repeat_steps_until_success fuel page (pre ++ step :: post) max_wait_time
                             no_of_attempts step_wait_time raise_exception_
                             return_data s
  = (r, s') ->
  exists l',
    repeat_loop fuel page step_wait_time (pre ++ step :: post)
                (Loop.mk max_wait_time no_of_attempts None false) s
    = (match r with
       | Returned _ => Returned l'
       | Raised e => Raised e
       | NoFuel => NoFuel
       end, s')
    /\ (forall v, r = Returned v ->
                  Loop.break_flag l' = true
                  /\ v = if return_data
                         then WithData (mkData (Loop.data l') true)
                         else Flag true).
Proof.
  intros Hpos H. unfold repeat_steps_until_success, bind in H.
  destruct (repeat_loop fuel page step_wait_time (pre ++ step :: post)
                        (Loop.mk max_wait_time no_of_attempts None false) s)
    as [[l'|e|] s1] eqn:Hloop.
  - apply repeat_loop_override in Hloop; [|exact Hpos].
    rewrite Hloop in H. cbn [negb] in H. exists l'.
    destruct return_data; unfold ret in H; injection H as <- <-;
      (split; [reflexivity|]); intros v Hv; injection Hv as <-; now split.
  - injection H as <- <-.
    exists (Loop.mk max_wait_time no_of_attempts None false).
    split; [reflexivity|discriminate].
  - injection H as <- <-.
    exists (Loop.mk max_wait_time no_of_attempts None false).
    split; [reflexivity|discriminate].
Qed.

End Override.

End OrchestratorMore.

Lemma repeat_steps_without_attempts_witness :
  repeat_steps_until_success 1 quiet [click_submit; validate_status]
                             (300 * second) 0 (2 * second) true false
                             (fresh [Present button])
  = (Raised StepsNotCompleted, fresh [Present button]).
Proof.
  exact (repeat_steps_without_attempts
           quiet (2 * second) 0 [click_submit; validate_status]
           (300 * second) 0 true false (fresh [Present button])
           ltac:(lia)).
Defined.

Lemma repeat_steps_on_no_steps_witness :
  repeat_steps_until_success 1 quiet [] (300 * second) 3 (2 * second)
                             false false (fresh [])
  = (Raised IndexError, fresh []).
Proof.
  exact (repeat_steps_on_no_steps quiet (2 * second) 0 (300 * second) 3
                                  false false (fresh []) ltac:(lia)).
Defined.

Lemma success_is_latched_witness :
  exists s',
    repeat_loop 1 quiet (2 * second)
                ([validate_status]
                   ++ [Step.mk "validate_text" "status" "done" None None
                               None None])
                (Loop.mk (300 * second) 3 None false)
                (fresh [Present (showing "done"); Present (showing "late")])
    = (Returned (Loop.mk (300 * second) 2 (Some "late"%string) true), s')
    /\ driver s' = [].
Proof.
  eexists. split.
  - eapply eq_trans.
    + eapply (success_is_latched
                quiet (2 * second) 0 [validate_status]
                [Step.mk "validate_text" "status" "done" None None None None]
                (Loop.mk (300 * second) 3 None false) _ _
                (fresh [Present (showing "done"); Present (showing "late")]));
        reflexivity.
    + reflexivity.
  - reflexivity.
Defined.

Lemma wait_override_is_shared_witness :
  exists l' s',
    repeat_loop 2 quiet 0
                ([] ++ Step.mk "click" "submit" "" (Some (5 * second)) None
                               None None
                    :: [click_submit])
                (Loop.mk (300 * second) 2 (Some "none"%string) false)
                (fresh [])
    = repeat_loop 1 quiet 0
                  ([] ++ Step.mk "click" "submit" "" (Some (5 * second)) None
                                 None None
                      :: [click_submit])
                  (Loop.mk (5 * second) 1 (Some "none"%string) false) s'
    /\ Loop.max_wait_time l' = 5 * second
    /\ clock s' = 10 * second.
Proof.
  pose proof (fun l0 l1 l' s0 s1 s' =>
                wait_override_is_shared
                  quiet 0
                  (Step.mk "click" "submit" "" (Some (5 * second)) None
                           None None)
                  (5 * second) 1 [] [click_submit]
                  (Loop.mk (300 * second) 2 (Some "none"%string) false)
                  l0 l1 l' (fresh []) s0 s1 s' eq_refl) as T.
  edestruct T as (_ & Hw & Hloop).
  - repeat constructor.
  - reflexivity.
  - reflexivity.
  - reflexivity.
  - reflexivity.
  - reflexivity.
  - reflexivity.
  - eexists. eexists. split; [exact Hloop|]. split; [exact Hw|reflexivity].
Defined.

Lemma override_never_reports_failure_witness :
  exists l' s',
    repeat_loop 3 quiet (2 * second)
                ([] ++ click_submit_with 2 :: [validate_status])
                (Loop.mk (300 * second) 1 None false)
                (fresh [Present button; Present (showing "busy");
                        Present button; Present (showing "done")])
    = (Returned l', s')
    /\ Loop.break_flag l' = true
    /\ WithData (mkData (Some "done"%string) true)
       = WithData (mkData (Loop.data l') true).
Proof.
  pose proof (fun s' r =>
                override_never_reports_failure
                  quiet (2 * second) [] [validate_status]
                  (click_submit_with 2) 2
                  eq_refl ltac:(lia) ltac:(repeat constructor)
                  3 (300 * second) 1 true true
                  (fresh [Present button; Present (showing "busy");
                          Present button; Present (showing "done")])
                  s' r ltac:(lia)) as T.
  edestruct T as (l' & Hloop & Hv); [vm_compute; reflexivity|].
  destruct (Hv _ eq_refl) as (Hflag & Hdata).
  exists l'. eexists. split; [exact Hloop|]. split; [exact Hflag|exact Hdata].
Defined.

(** ** Termination of the spreadsheet host *)

Section ExcelQuitMore.

Import Excel.

Variable delay : Z.

Lemma failed_rounds_snoc (u : string) (r : nat) (rest : list Act) :
  failed_rounds u r ++ Taskkill u :: AskedToQuit :: rest
  = Taskkill u :: AskedToQuit :: failed_rounds u r ++ rest.
Proof.
  induction r as [|r IH]; [reflexivity|].
  cbn [failed_rounds app]. now rewrite IH.
Qed.

(** X21: [quit] stops at the first answer that is no failure: after [r0]
    busy answers and one that quits, the application has been asked
    [r0 + 1] times and the retries that are left are not used. *)
Theorem quit_stops_at_first_success (r0 : nat) (retries : Z) (h : Host)
        (rest : list Answer) :
  0 <= delay ->
  Z.of_nat r0 < retries ->
  answers h = repeat (ComError busy) r0 ++ Quits :: rest ->
  quit retries delay h
  = (None,
     mkHost rest (login h) (AskedToQuit :: busy_rounds delay r0 ++ acts h)).
Proof.
  intros Hdelay Hlt Hans. unfold quit.
  replace (Z.to_nat retries) with (r0 + S (Z.to_nat retries - S r0))%nat by lia.
  rewrite (quit_rounds_busy delay r0 _ h (Quits :: rest) Hdelay Hans).
  reflexivity.
Qed.

(** X22: a failure other than busy does not end the rounds: facing [r]
    such failures with [r] retries, [quit] kills the application [r] times,
    once after each request, and sleeps between none of them. *)
Theorem quit_kills_on_every_failure (strerror : string) (r : nat) :
  forall (h : Host) (rest : list Answer),
    strerror <> busy ->
    answers h = repeat (ComError strerror) r ++ rest ->
    quit (Z.of_nat r) delay h
    = (None,
       mkHost rest (login h) (failed_rounds (login h) r ++ acts h)).
Proof.
  unfold quit. rewrite Nat2Z.id.
  induction r as [|r IH]; intros h rest Hne Hans.
  - cbn in *. now destruct h; cbn in *; subst.
  - cbn [quit_rounds]. unfold Quit. cbn [note answers login acts].
    rewrite Hans. cbn [repeat app].
    pose proof Hne as Hneb. apply String.eqb_neq in Hneb. rewrite Hneb.
    rewrite (IH _ rest Hne) by reflexivity.
    cbn [note answers login acts]. now rewrite failed_rounds_snoc.
Qed.

(** X23: a negative [delay] goes unnoticed until the application is busy:
    the first busy answer then ends [quit] in the [ValueError] of
    [time.sleep], with the retries that are left unused. *)
Theorem quit_negative_delay (retries : Z) (h : Host) (rest : list Answer) :
  delay < 0 ->
  0 < retries ->
  answers h = ComError busy :: rest ->
  quit retries delay h
  = (Some ValueError, mkHost rest (login h) (AskedToQuit :: acts h)).
Proof.
  intros Hdelay Hpos Hans. unfold quit.
  replace (Z.to_nat retries) with (S (Z.to_nat retries - 1)) by lia.
  cbn [quit_rounds]. unfold Quit. cbn [note answers login acts].
  rewrite Hans, String.eqb_refl.
  destruct (Z.ltb_spec delay 0) as [_|]; [reflexivity|lia].
Qed.

Lemma quit_rounds_asks (todo : nat) :
  forall h : Host,
    (asks_to_quit (acts (snd (quit_rounds todo delay h)))
     <= asks_to_quit (acts h) + todo)%nat.
Proof.
  induction todo as [|todo IH]; intros h; [cbn; lia|].
  cbn [quit_rounds]. unfold Quit. cbn [note answers login acts].
  destruct (answers h) as [|[|strerror] rest]; cbn [snd acts];
    try (unfold asks_to_quit; cbn; lia).
  destruct (String.eqb strerror busy).
  - destruct (delay <? 0); [unfold asks_to_quit; cbn; lia|].
    etransitivity; [apply IH|]. unfold asks_to_quit. cbn. lia.
  - etransitivity; [apply IH|]. unfold asks_to_quit. cbn. lia.
Qed.

Lemma quit_rounds_kills (todo : nat) :
  forall h : Host,
    forallb mild (answers h) = true ->
    kills (acts (snd (quit_rounds todo delay h))) = kills (acts h).
Proof.
  induction todo as [|todo IH]; intros h Hmild; [reflexivity|].
  cbn [quit_rounds]. unfold Quit. cbn [note answers login acts].
  destruct (answers h) as [|[|strerror] rest]; cbn [snd acts];
    try reflexivity.
  cbn [forallb mild] in Hmild. apply andb_prop in Hmild as [Hbusy Hrest].
  rewrite Hbusy. destruct (delay <? 0); [reflexivity|].
  rewrite IH; [reflexivity|exact Hrest].
Qed.

(** X24: whatever the application answers, [quit] asks it to quit at most
    [retries] times. *)
Theorem quit_asks_at_most_retries (retries : Z) (h : Host) :
  (asks_to_quit (acts (snd (quit retries delay h)))
   <= asks_to_quit (acts h) + Z.to_nat retries)%nat.
Proof.
  unfold quit. apply quit_rounds_asks.
Qed.

(** X25: the application is killed only after a failure other than busy:
    as long as every answer quits or is the busy failure, no kill is made,
    whatever [retries] and [delay] are. *)
Theorem quit_kills_only_on_failure (retries : Z) (h : Host) :
  forallb mild (answers h) = true ->
  kills (acts (snd (quit retries delay h))) = kills (acts h).
Proof.
  intros Hmild. unfold quit. now apply quit_rounds_kills.
Qed.

End ExcelQuitMore.

Lemma quit_stops_at_first_success_witness :
  Excel.quit 5 2
             (Excel.mkHost [Excel.ComError Excel.busy; Excel.Quits;
                            Excel.ComError "RPC server is unavailable."]
                           "basil" [])
  = (None,
     Excel.mkHost [Excel.ComError "RPC server is unavailable."] "basil"
                  [Excel.AskedToQuit; Excel.Paused 2; Excel.AskedToQuit]).
Proof.
  exact (quit_stops_at_first_success
           2 1 5
           (Excel.mkHost [Excel.ComError Excel.busy; Excel.Quits;
                          Excel.ComError "RPC server is unavailable."]
                         "basil" [])
           [Excel.ComError "RPC server is unavailable."]
           ltac:(lia) ltac:(lia) eq_refl).
Defined.

Lemma quit_kills_on_every_failure_witness :
  Excel.quit 2 2
             (Excel.mkHost [Excel.ComError "RPC server is unavailable.";
                            Excel.ComError "RPC server is unavailable."]
                           "basil" [])
  = (None,
     Excel.mkHost [] "basil"
                  [Excel.Taskkill "basil"; Excel.AskedToQuit;
                   Excel.Taskkill "basil"; Excel.AskedToQuit]).
Proof.
  exact (quit_kills_on_every_failure
           2 "RPC server is unavailable." 2
           (Excel.mkHost [Excel.ComError "RPC server is unavailable.";
                          Excel.ComError "RPC server is unavailable."]
                         "basil" [])
           [] ltac:(discriminate) eq_refl).
Defined.

Lemma quit_negative_delay_witness :
  Excel.quit 5 (-1) (Excel.mkHost [Excel.ComError Excel.busy] "basil" [])
  = (Some ValueError, Excel.mkHost [] "basil" [Excel.AskedToQuit]).
Proof.
  exact (quit_negative_delay
           (-1) 5 (Excel.mkHost [Excel.ComError Excel.busy] "basil" []) []
           ltac:(lia) ltac:(lia) eq_refl).
Defined.

Lemma quit_kills_only_on_failure_witness :
  kills (Excel.acts
           (snd (Excel.quit 5 2
                   (Excel.mkHost [Excel.ComError Excel.busy; Excel.Quits]
                                 "basil" []))))
  = 0%nat.
Proof.
  exact (quit_kills_only_on_failure
           2 5 (Excel.mkHost [Excel.ComError Excel.busy; Excel.Quits]
                             "basil" [])
           eq_refl).
Defined.

(** ** PollingWait: [wait_until_element_text_changes] *)

(** Looking for an element leaves the flag of the instance as it was. *)
Lemma resolve_keeps_flag (locator : string) (max_wait_time : Z)
      (is_clickable : bool) (s : WebActions) :
  raise_exception (snd (_get_element_if_exist locator max_wait_time
                                              is_clickable s))
  = raise_exception s.
Proof.
  unfold _get_element_if_exist, bind, try_except, time_time, _time_left, ret,
    raise, until, get_raise_exception.
  cbn.
  destruct (Z.max 0 (max_wait_time - (clock s - clock s)) =? 0); cbn.
  - destruct (raise_exception s) eqn:E; cbn; auto.
  - destruct (driver s) as [|[el| |e] rest]; cbn;
      try destruct (is_Exception e); cbn;
      destruct (raise_exception s) eqn:E; cbn; auto.
Qed.

Lemma wait_until_text_matches_loop_keeps_flag
      (locator expected : string) (is_clickable : bool) (fuel : nat) :
  forall (max_wait_time : Z) (s : WebActions),
    raise_exception (snd (wait_until_text_matches_loop
                            fuel locator expected max_wait_time
                            is_clickable s))
    = raise_exception s.
Proof.
  induction fuel as [|fuel IH]; intros max_wait_time s; [reflexivity|].
  cbn [wait_until_text_matches_loop].
  destruct (0 <? max_wait_time); [|reflexivity].
  pose proof (resolve_keeps_flag locator max_wait_time is_clickable s) as Hres.
  unfold bind at 1.
  destruct (_get_element_if_exist locator max_wait_time is_clickable s)
    as [[el|e|] s1]; cbn [snd] in Hres; [|exact Hres|exact Hres].
  unfold bind at 1, set_element at 1.
  destruct (text_matches el expected); [exact Hres|].
  unfold bind at 1, time_sleep at 1.
  change (1 * second <? 0) with false. cbv iota.
  rewrite IH. exact Hres.
Qed.

Section TextChanges.

Variables (locator expected : string) (is_clickable : bool).

(** Looks that find the text unchanged cost a second each. *)
Lemma text_changes_same (same : list WebElement) :
  forall (fuel : nat) (max_wait_time : Z) (rest : list Response)
         (s : WebActions),
    Forall (fun e => text e = expected) same ->
    Z.of_nat (length same) * second <= max_wait_time ->
    driver s = map Present same ++ rest ->
    exists s1,
      wait_until_element_text_changes_loop
        (length same + fuel) locator expected max_wait_time is_clickable s
      = wait_until_element_text_changes_loop
          fuel locator expected
          (max_wait_time - Z.of_nat (length same) * second) is_clickable s1
      /\ clock s1 - clock s = Z.of_nat (length same) * second
      /\ driver s1 = rest
      /\ raise_exception s1 = raise_exception s.
Proof.
  induction same as [|e same IH]; intros fuel max_wait_time rest s Hsame Hfit Hd.
  - exists s. cbn [length Nat.add]. change (Z.of_nat 0) with 0.
    rewrite Z.mul_0_l, Z.sub_0_r.
    split; [reflexivity|]. split; [lia|]. split; [exact Hd|reflexivity].
  - inversion Hsame as [|? ? He Hsame']; subst.
    cbn [length] in Hfit. rewrite Nat2Z.inj_succ in Hfit.
    assert (Hpos : 0 < max_wait_time) by (unfold second in *; lia).
    cbn [length Nat.add wait_until_element_text_changes_loop].
    destruct (Z.ltb_spec 0 max_wait_time) as [_|]; [|lia].
    unfold bind at 1.
    rewrite (resolve_present locator max_wait_time Hpos is_clickable e
                             (map Present same ++ rest) s Hd).
    unfold bind at 1, set_element at 1.
    unfold bind at 1, element_text at 1, ret at 1.
    rewrite String.eqb_refl. cbn [negb].
    unfold bind at 1, time_sleep at 1.
    change (1 * second <? 0) with false. cbv iota.
    match goal with
    | |- exists _, wait_until_element_text_changes_loop _ _ _ ?t _ ?st = _ /\ _ =>
        destruct (IH fuel t rest st Hsame') as (s1 & Hrun & Hc & Hd1 & Hf)
    end.
    + unfold second in *. lia.
    + reflexivity.
    + exists s1. split; [|split; [|split]].
      * rewrite Hrun. f_equal. rewrite Nat2Z.inj_succ. lia.
      * cbn [clock record with_clock with_element with_driver] in Hc.
        rewrite Nat2Z.inj_succ. lia.
      * exact Hd1.
      * exact Hf.
Qed.

(** The first phase, on a page that shows the text at the look after
    [pre]. *)
Lemma text_changes_first_phase (max_wait_time : Z) (pre : list WebElement)
      (el : WebElement) (rest : list Response) (s : WebActions) :
  Forall (fun e => text e <> expected) pre ->
  text el = expected ->
  Z.of_nat (length pre) * second < max_wait_time ->
  driver s = map Present pre ++ Present el :: rest ->
  exists s1,
    wait_until_text_matches locator expected max_wait_time is_clickable s
    = (Returned true, s1)
    /\ clock s1 - clock s = Z.of_nat (length pre) * second
    /\ driver s1 = rest
    /\ raise_exception s1 = raise_exception s.
Proof.
  intros Hpre Hel Hfit Hd. unfold wait_until_text_matches.
  pose proof (wait_until_text_matches_loop_keeps_flag
                locator expected is_clickable (S (Z.to_nat max_wait_time))
                max_wait_time s) as Hflag.
  replace (S (Z.to_nat max_wait_time))
    with (length pre + S (Z.to_nat max_wait_time - length pre))%nat in *
    by (unfold second in *; lia).
  destruct (wait_until_first_match locator expected is_clickable pre
              (Z.to_nat max_wait_time - length pre) max_wait_time el rest s
              Hpre Hel Hfit Hd) as (s1 & Hrun & Hc & Hd1).
  rewrite Hrun in Hflag. exists s1. auto.
Qed.

(** X26: the wait time is spent twice over.  When the text shows up after
    [k] seconds and then stays, [wait_until_element_text_changes] returns,
    as it does after a change, once a further [max_wait_time] has gone by:
    [k + T] seconds for a limit of [T] whole seconds. *)
Theorem text_changes_waits_twice (T : nat) (pre same : list WebElement)
        (el : WebElement) (rest : list Response) (s : WebActions) :
  Forall (fun e => text e <> expected) pre ->
  text el = expected ->
  Forall (fun e => text e = expected) same ->
  (length pre < T)%nat ->
  length same = T ->
  driver s = map Present pre ++ Present el :: map Present same ++ rest ->
  exists s',
    wait_until_element_text_changes locator expected (Z.of_nat T * second)
                                    is_clickable s
    = (Returned tt, s')
    /\ clock s' - clock s = (Z.of_nat (length pre) + Z.of_nat T) * second
    /\ driver s' = rest.
Proof.
  intros Hpre Hel Hsame Hlt Hlen Hd.
  destruct (text_changes_first_phase (Z.of_nat T * second) pre el
              (map Present same ++ rest) s Hpre Hel)
    as (s1 & Hrun & Hc & Hd1 & _); [unfold second; lia|exact Hd|].
  unfold wait_until_element_text_changes, bind. rewrite Hrun. cbn [negb].
  replace (S (Z.to_nat (Z.of_nat T * second)))
    with (length same + S (Z.to_nat (Z.of_nat T * second) - length same))%nat
    by (unfold second; lia).
  destruct (text_changes_same same
              (S (Z.to_nat (Z.of_nat T * second) - length same))
              (Z.of_nat T * second) rest s1 Hsame)
    as (s2 & Hrun2 & Hc2 & Hd2 & _); [rewrite Hlen; lia|exact Hd1|].
  rewrite Hrun2, Hlen, Z.sub_diag. cbn [wait_until_element_text_changes_loop].
  change (0 <? 0) with false. cbv iota.
  exists s2. split; [reflexivity|]. split; [lia|exact Hd2].
Qed.

(** X27: the text is waited on until the first look that finds another
    one: with the text there after [k] seconds and changed [j] seconds
    later, the call returns after [k + j] seconds. *)
Theorem text_changes_at_first_difference (max_wait_time : Z)
        (pre same : list WebElement) (el other : WebElement)
        (rest : list Response) (s : WebActions) :
  Forall (fun e => text e <> expected) pre ->
  text el = expected ->
  Forall (fun e => text e = expected) same ->
  text other <> expected ->
  Z.of_nat (length pre) * second < max_wait_time ->
  Z.of_nat (length same) * second < max_wait_time ->
  driver s
  = map Present pre ++ Present el :: map Present same ++ Present other :: rest ->
  exists s',
    wait_until_element_text_changes locator expected max_wait_time
                                    is_clickable s
    = (Returned tt, s')
    /\ clock s' - clock s
       = (Z.of_nat (length pre) + Z.of_nat (length same)) * second
    /\ driver s' = rest.
Proof.
  intros Hpre Hel Hsame Hother Hfit Hfit2 Hd.
  destruct (text_changes_first_phase max_wait_time pre el
              (map Present same ++ Present other :: rest) s Hpre Hel Hfit Hd)
    as (s1 & Hrun & Hc & Hd1 & _).
  unfold wait_until_element_text_changes, bind. rewrite Hrun. cbn [negb].
  replace (S (Z.to_nat max_wait_time))
    with (length same + S (Z.to_nat max_wait_time - length same))%nat
    by (unfold second in *; lia).
  destruct (text_changes_same same
              (S (Z.to_nat max_wait_time - length same))
              max_wait_time (Present other :: rest) s1 Hsame)
    as (s2 & Hrun2 & Hc2 & Hd2 & _); [lia|exact Hd1|].
  rewrite Hrun2. cbn [wait_until_element_text_changes_loop].
  assert (Hpos : 0 < max_wait_time - Z.of_nat (length same) * second) by lia.
  destruct (Z.ltb_spec 0 (max_wait_time - Z.of_nat (length same) * second))
    as [_|]; [|lia].
  unfold bind at 1.
  rewrite (resolve_present locator _ Hpos is_clickable other rest s2 Hd2).
  unfold bind at 1, set_element at 1.
  unfold bind at 1, element_text at 1, ret at 1.
  apply String.eqb_neq in Hother. rewrite Hother. cbn [negb].
  eexists. split; [reflexivity|]. cbn. split; [lia|reflexivity].
Qed.

(** X28: an element that is gone once its text has matched is no change
    of text.  With escalation off the call ends in [AttributeError], on
    the [text] of a handle that is [None], when the whole of
    [max_wait_time] has gone by after the match. *)
Theorem text_changes_on_vanished_element (max_wait_time : Z)
        (pre : list WebElement) (el : WebElement) (s : WebActions) :
  raise_exception s = false ->
  Forall (fun e => text e <> expected) pre ->
  text el = expected ->
  Z.of_nat (length pre) * second < max_wait_time ->
  driver s = map Present pre ++ [Present el] ->
  exists s',
    wait_until_element_text_changes locator expected max_wait_time
                                    is_clickable s
    = (Raised AttributeError, s')
    /\ clock s' - clock s = Z.of_nat (length pre) * second + max_wait_time.
Proof.
  intros Hflag Hpre Hel Hfit Hd.
  destruct (text_changes_first_phase max_wait_time pre el [] s Hpre Hel Hfit Hd)
    as (s1 & Hrun & Hc & Hd1 & Hf1).
  unfold wait_until_element_text_changes, bind at 1. rewrite Hrun. cbn [negb].
  cbn [wait_until_element_text_changes_loop].
  assert (Hpos : 0 < max_wait_time) by (unfold second in *; lia).
  destruct (Z.ltb_spec 0 max_wait_time) as [_|]; [|lia].
  rewrite Hflag in Hf1.
  destruct (resolve_absent locator max_wait_time Hpos is_clickable s1 Hf1
                           (or_introl Hd1))
    as (s2 & Hres & Hc2 & _ & _).
  unfold bind at 1. rewrite Hres.
  unfold bind at 1, set_element at 1.
  unfold bind at 1, element_text at 1, raise at 1.
  eexists. split; [reflexivity|]. cbn. lia.
Qed.

End TextChanges.

Lemma text_changes_waits_twice_witness :
  exists s',
    wait_until_element_text_changes "status" "busy" (Z.of_nat 2 * second)
                                    false
                                    (fresh [Present (showing "idle");
                                            Present (showing "busy");
                                            Present (showing "busy");
                                            Present (showing "busy")])
    = (Returned tt, s')
    /\ clock s' - clock (fresh []) = (Z.of_nat 1 + Z.of_nat 2) * second
    /\ driver s' = [].
Proof.
  apply (text_changes_waits_twice
           "status" "busy" false 2 [showing "idle"]
           [showing "busy"; showing "busy"] (showing "busy") []
           (fresh [Present (showing "idle"); Present (showing "busy");
                   Present (showing "busy"); Present (showing "busy")]));
    try reflexivity; try lia; repeat constructor; discriminate.
Defined.

Lemma text_changes_at_first_difference_witness :
  exists s',
    wait_until_element_text_changes "status" "busy" (300 * second) false
                                    (fresh [Present (showing "busy");
                                            Present (showing "busy");
                                            Present (showing "done")])
    = (Returned tt, s')
    /\ clock s' - clock (fresh []) = (Z.of_nat 0 + Z.of_nat 1) * second
    /\ driver s' = [].
Proof.
  apply (text_changes_at_first_difference
           "status" "busy" false (300 * second) [] [showing "busy"]
           (showing "busy") (showing "done") []
           (fresh [Present (showing "busy"); Present (showing "busy");
                   Present (showing "done")]));
    try reflexivity; try discriminate; repeat constructor.
Defined.

Lemma text_changes_on_vanished_element_witness :
  exists s',
    wait_until_element_text_changes "spinner" "Loading" (5 * second) false
                                    (fresh [Present (showing "Loading")])
    = (Raised AttributeError, s')
    /\ clock s' - clock (fresh []) = Z.of_nat 0 * second + 5 * second.
Proof.
  apply (text_changes_on_vanished_element
           "spinner" "Loading" false (5 * second) [] (showing "Loading")
           (fresh [Present (showing "Loading")]));
    try reflexivity; constructor.
Defined.

(** ** Configuration *)

Section ReadConfig.

Import Config.

Variable exists_ : PyVal -> bool.

(** X29: the default is for a tag that is there and blank, not for a tag
    that is missing: a missing tag ends in [ConfigKeyMissingError] whatever
    [if_none_return] and the other flags are, and in the [KeyError] of
    [print(config[tag])] when [write_to_console] is set; nothing is
    printed. *)
Theorem read_config_missing_tag (items : list (string * option PyVal))
        (tag : string)
        (write_to_console raise_error_on_not_found validate_existence : bool)
        (if_none_return : option PyVal) :
  (forall v, ~ In (tag, v) items) ->
  read_config exists_ (Mapping items) tag write_to_console
              raise_error_on_not_found validate_existence if_none_return
  = (Error (if write_to_console then KeyError else ConfigKeyMissingError), []).
Proof.
  intros Hmissing.
  assert (Hlookup : lookup tag items = None).
  { unfold lookup.
    destruct (find (fun kv => String.eqb (fst kv) tag) items) as [[k v]|] eqn:E;
      [|reflexivity].
    apply find_some in E as [Hin Hk]. cbn in Hk.
    apply String.eqb_eq in Hk. subst k. now apply Hmissing in Hin. }
  unfold read_config. rewrite Hlookup. now destruct write_to_console.
Qed.

(** X30: a value that [read_config] hands back is not [None] as soon as the
    caller asked for one of the three checks: [raise_error_on_not_found],
    [validate_existence], or a default that is truthy; a default that is
    falsy does not count. *)
Theorem read_config_never_blank (config : Document) (tag : string)
        (write_to_console raise_error_on_not_found validate_existence : bool)
        (if_none_return : option PyVal)
        (x : option PyVal) (printed : list (option PyVal)) :
  raise_error_on_not_found || validate_existence || truthy if_none_return
  = true ->
  read_config exists_ config tag write_to_console raise_error_on_not_found
              validate_existence if_none_return
  = (Value x, printed) ->
  x <> None.
Proof.
  intros Hasked H. unfold read_config in *.
  destruct config as [items|]; [|destruct write_to_console; discriminate].
  destruct (lookup tag items) as [v|];
    [|destruct write_to_console; discriminate].
  assert (Hout : exists out,
             (if write_to_console
              then @inl (list (option PyVal)) error [v]
              else inl [])
             = inl out)
    by (destruct write_to_console; eexists; reflexivity).
  destruct Hout as (out & Hout). rewrite Hout in *. clear Hout.
  destruct v as [p|]; cbn [is_None] in *.
  - rewrite !andb_false_r in *.
    destruct validate_existence; [destruct (exists_ p)|];
      try discriminate; injection H as <- <-; discriminate.
  - rewrite !andb_true_r in *.
    destruct raise_error_on_not_found; [discriminate|].
    destruct validate_existence; [discriminate|].
    cbn [orb] in Hasked. rewrite Hasked in H. injection H as <- <-.
    intros ->. discriminate.
Qed.

End ReadConfig.

Lemma read_config_missing_tag_witness :
  Config.read_config (fun _ => true)
                     (Config.Mapping [("OCA_XPATH"%string, None)])
                     "NGQ_XPATH" false false false (Some (PStr "//div"))
  = (Config.Error Config.ConfigKeyMissingError, []).
Proof.
  apply (read_config_missing_tag
           (fun _ => true) [("OCA_XPATH"%string, None)] "NGQ_XPATH"
           false false false (Some (PStr "//div"))).
  intros v [H|[]]. discriminate.
Defined.

Lemma read_config_never_blank_witness :
  Config.read_config (fun _ => true)
                     (Config.Mapping [("OCA_XPATH"%string, None)])
                     "OCA_XPATH" true false false (Some (PStr "//div"))
  = (Config.Value (Some (PStr "//div")), [None])
  /\ Some (PStr "//div") <> None.
Proof.
  split; [reflexivity|].
  exact (read_config_never_blank
           (fun _ => true) (Config.Mapping [("OCA_XPATH"%string, None)])
           "OCA_XPATH" true false false (Some (PStr "//div"))
           (Some (PStr "//div")) [None] eq_refl eq_refl).
Defined.
